(** * Flood-risk monitor: a shallow embedding of [app.py]

    The program polls river gauges (USGS water services), classifies each
    station's risk against the median of its recent daily values, keeps an
    in-memory subscription registry per venue and, once a minute, prints a
    notification for every venue whose nearest station is at elevated risk.

    Conventions of the embedding:
    - a Python [float] is an IEEE-754 binary64 value, Rocq's primitive
      [float]; [+], [*], [/] and the comparisons are the primitive ones
      (round to nearest, ties to even; every comparison with NaN is false);
    - a value decoded from JSON is a [json] term; [None] is [JNull];
    - a Python call that may raise returns a [result];
    - the network is an input: the outcome of each HTTP request is a value
      of type [http_outcome];
    - the C library's [sin], [cos] and [acos] on finite arguments are
      parameters ([libm]); Python's wrappers around them are modelled. *)

From stdpp Require Import gmap strings list sorting.
From Stdlib Require Import ZArith Floats Ascii Ring.
Set Warnings "-inexact-float,-register-all,-clear-no-such-hyp".

(** ** Exceptions and fallible computations *)

Inductive exn : Set :=
| AttributeError      (* method looked up on a value that has none *)
| TypeError
| KeyError
| IndexError
| ValueError
| OverflowError
| RequestException    (* requests.get: connection error or timeout *)
| HTTPError           (* Response.raise_for_status *)
| JSONDecodeError     (* Response.json *)
| StatisticsError.    (* statistics.median of no data *)

Inductive result (A : Type) : Type :=
| Ok (a : A)
| Raise (e : exn).
Arguments Ok {A} a.
Arguments Raise {A} e.

#[global] Instance result_ret : MRet result := fun _ a => Ok a.
#[global] Instance result_bind : MBind result := fun _ _ f m =>
  match m with Ok a => f a | Raise e => Raise e end.
#[global] Instance result_fmap : FMap result := fun _ _ f m =>
  match m with Ok a => Ok (f a) | Raise e => Raise e end.

Definition is_ok {A} (r : result A) : bool :=
  match r with Ok _ => true | Raise _ => false end.

(** ** JSON values as Python sees them

    [json.loads] yields [None], [bool], [int], [float] (including the
    literals [NaN] and [Infinity]), [str], [list] and [dict].  A [dict] is
    kept as the list of its items; [dict_get] reads the first item of a key. *)

Inductive json : Type :=
| JNull
| JBool (b : bool)
| JInt (n : Z)
| JFloat (x : float)
| JStr (s : string)
| JList (items : list json)
| JDict (fields : list (string * json)).

Fixpoint dict_get (fields : list (string * json)) (key : string) : option json :=
  match fields with
  | [] => None
  | (k, v) :: rest => if String.eqb k key then Some v else dict_get rest key
  end.

(** [bool(v)]: Python truthiness. *)
Definition truthy (v : json) : bool :=
  match v with
  | JNull => false
  | JBool b => b
  | JInt n => negb (n =? 0)%Z
  | JFloat x => negb (x =? 0)%float
  | JStr s => negb (String.eqb s "")
  | JList items => match items with [] => false | _ => true end
  | JDict fields => match fields with [] => false | _ => true end
  end.

(** [v.get(key, dflt)]: only a [dict] has the method. *)
Definition py_get (v : json) (key : string) (dflt : json) : result json :=
  match v with
  | JDict fields => Ok (default dflt (dict_get fields key))
  | _ => Raise AttributeError
  end.

(** [for x in v]: the items a [for] loop visits.  A [str] yields its
    characters and a [dict] its keys, all of them [str]. *)
Definition py_iter (v : json) : result (list json) :=
  match v with
  | JList items => Ok items
  | JStr s => Ok ((fun c => JStr (String c EmptyString)) <$> String.list_ascii_of_string s)
  | JDict fields => Ok ((fun kv => JStr kv.1) <$> fields)
  | _ => Raise TypeError
  end.

(** [v[0]] and [v[-1]]. *)
Definition py_first (v : json) : result json :=
  match v with
  | JList items => match items with x :: _ => Ok x | [] => Raise IndexError end
  | JStr s => match s with String c _ => Ok (JStr (String c EmptyString))
                         | EmptyString => Raise IndexError end
  | JDict _ => Raise KeyError
  | _ => Raise TypeError
  end.

Definition py_last (v : json) : result json :=
  match v with
  | JList items => match last items with Some x => Ok x | None => Raise IndexError end
  | JStr s => match last (String.list_ascii_of_string s) with
              | Some c => Ok (JStr (String c EmptyString))
              | None => Raise IndexError
              end
  | JDict _ => Raise KeyError
  | _ => Raise TypeError
  end.

(** [v[key]] for a [str] key. *)
Definition py_item (v : json) (key : string) : result json :=
  match v with
  | JDict fields => match dict_get fields key with Some x => Ok x | None => Raise KeyError end
  | _ => Raise TypeError
  end.

(** [v == s] for a [str] literal [s]. *)
Definition py_eq_str (v : json) (s : string) : bool :=
  match v with JStr t => String.eqb t s | _ => false end.

(** ** [float(...)]

    [float] of a [str] follows CPython: ASCII white space is stripped, an
    underscore may stand between two digits, and the rest is an optional
    sign followed by [inf], [infinity], [nan] (any case) or a decimal
    number with an optional exponent; the value is rounded correctly to
    binary64, overflowing to an infinity.  Strings are ASCII text here. *)

Definition is_digit (c : ascii) : bool :=
  let n := nat_of_ascii c in (48 <=? n)%nat && (n <=? 57)%nat.

Definition digit_val (c : ascii) : Z := Z.of_nat (nat_of_ascii c) - 48.

Definition is_space (c : ascii) : bool :=
  let n := nat_of_ascii c in ((9 <=? n)%nat && (n <=? 13)%nat) || (n =? 32)%nat.

Definition lower (c : ascii) : ascii :=
  let n := nat_of_ascii c in
  if (65 <=? n)%nat && (n <=? 90)%nat then ascii_of_nat (n + 32) else c.

Fixpoint lstrip (s : list ascii) : list ascii :=
  match s with
  | c :: rest => if is_space c then lstrip rest else s
  | [] => []
  end.

Definition strip (s : list ascii) : list ascii := rev (lstrip (rev (lstrip s))).

(** Underscores: each one must follow a digit and precede a digit. *)
Fixpoint drop_underscores (prev : option ascii) (s : list ascii) : option (list ascii) :=
  match s with
  | [] => match prev with
          | Some c => if Ascii.eqb c "_" then None else Some []
          | None => Some []
          end
  | c :: rest =>
      let prev_digit := match prev with Some p => is_digit p | None => false end in
      let prev_under := match prev with Some p => Ascii.eqb p "_" | None => false end in
      if Ascii.eqb c "_" then
        if prev_digit then drop_underscores (Some c) rest else None
      else if prev_under && negb (is_digit c) then None
      else (c ::.) <$> drop_underscores (Some c) rest
  end.

Fixpoint take_digits (s : list ascii) : list ascii * list ascii :=
  match s with
  | c :: rest => if is_digit c then let '(d, r) := take_digits rest in (c :: d, r)
                 else ([], s)
  | [] => ([], [])
  end.

Definition digits_val (d : list ascii) : Z :=
  foldl (fun acc c => 10 * acc + digit_val c)%Z 0%Z d.

Definition take_sign (s : list ascii) : bool * list ascii :=
  match s with
  | c :: rest => if Ascii.eqb c "-" then (true, rest)
                 else if Ascii.eqb c "+" then (false, rest) else (false, s)
  | [] => (false, [])
  end.

(** The binary64 value nearest to [(-1)^neg * m * 10^e10] (ties to even).
    For a negative exponent the quotient is taken with more than a thousand
    extra bits and a sticky bit, which rounds as the exact quotient does. *)
Definition decimal_to_float (neg : bool) (m e10 : Z) : float :=
  let sgn (z : Z) := if neg then (- z)%Z else z in
  if (m =? 0)%Z then (if neg then (-0)%float else 0%float)
  else if (0 <=? e10)%Z then
    SF2Prim (binary_normalize prec emax (sgn (m * 10 ^ e10)%Z) 0 false)
  else
    let d := (10 ^ (- e10))%Z in
    let k := (1100 + Z.log2_up d)%Z in
    let n := (m * 2 ^ k)%Z in
    let sticky := if (n mod d =? 0)%Z then 0%Z else 1%Z in
    SF2Prim (binary_normalize prec emax (sgn (2 * (n / d) + sticky)%Z) (- k - 1) false).

(** The exponent part: [e], an optional sign and at least one digit;
    anything else leaves the text where it is. *)
Definition take_exponent (s : list ascii) : Z * list ascii :=
  match s with
  | c :: rest =>
      if Ascii.eqb (lower c) "e" then
        let '(neg, r1) := take_sign rest in
        let '(d, r2) := take_digits r1 in
        match d with
        | [] => (0%Z, s)
        | _ => ((if neg then - digits_val d else digits_val d)%Z, r2)
        end
      else (0%Z, s)
  | [] => (0%Z, [])
  end.

Definition parse_decimal (neg : bool) (s : list ascii) : option float :=
  let '(ip, r1) := take_digits s in
  let '(fp, r2) :=
    match r1 with
    | c :: rest => if Ascii.eqb c "." then take_digits rest else ([], r1)
    | [] => ([], [])
    end in
  match ip ++ fp with
  | [] => None
  | ds =>
      let '(ex, r3) := take_exponent r2 in
      match r3 with
      | [] => Some (decimal_to_float neg (digits_val ds) (ex - Z.of_nat (length fp)))
      | _ => None
      end
  end.

Definition parse_inf_nan (neg : bool) (s : list ascii) : option float :=
  let t := String.string_of_list_ascii (lower <$> s) in
  if String.eqb t "inf" || String.eqb t "infinity"
  then Some (if neg then neg_infinity else infinity)
  else if String.eqb t "nan" then Some nan
  else None.

Definition float_of_str (s : string) : result float :=
  match drop_underscores None (strip (String.list_ascii_of_string s)) with
  | None => Raise ValueError
  | Some t =>
      let '(neg, body) := take_sign t in
      match parse_decimal neg body with
      | Some x => Ok x
      | None => match parse_inf_nan neg body with
                | Some x => Ok x
                | None => Raise ValueError
                end
      end
  end.

(** [float(n)] for an [int]: correctly rounded, [OverflowError] beyond the
    binary64 range. *)
Definition float_of_int (n : Z) : result float :=
  let x := SF2Prim (binary_normalize prec emax n 0 false) in
  if is_infinity x then Raise OverflowError else Ok x.

Definition py_float (v : json) : result float :=
  match v with
  | JNull => Raise TypeError
  | JBool b => Ok (if b then 1 else 0)%float
  | JInt n => float_of_int n
  | JFloat x => Ok x
  | JStr s => float_of_str s
  | JList _ | JDict _ => Raise TypeError
  end.

(** [v.split("T")[0]]: only a [str] has the method. *)
Fixpoint before_T (s : string) : string :=
  match s with
  | EmptyString => EmptyString
  | String c rest => if Ascii.eqb c "T" then EmptyString else String c (before_T rest)
  end.

Definition py_split_T_first (v : json) : result string :=
  match v with
  | JStr s => Ok (before_T s)
  | _ => Raise AttributeError
  end.

(** [v not in (None, "")]. *)
Definition not_none_or_empty (v : json) : bool :=
  match v with
  | JNull => false
  | JStr s => negb (String.eqb s "")
  | _ => true
  end.

(** ** The network

    [requests.get] either raises or returns a response with a status code
    and a body; [Response.json] raises when the body is not JSON.  The two
    USGS endpoints are read per site identifier; the daily values also
    depend on the length of the window, which ends on the day of the call. *)

Inductive http_outcome : Type :=
| NoResponse
| Response (status : Z) (body : option json).

Record upstream : Type := {
  (* requests.get(USGS_IV_API.format(site=site), timeout=10) *)
  iv_get : string -> http_outcome;
  (* requests.get(USGS_DV_API.format(site=site, start=..., end=...), timeout=15),
     for the [days] days that end today *)
  dv_get : string -> Z -> http_outcome
}.

Definition raise_for_status (status : Z) : result unit :=
  if (400 <=? status)%Z && (status <? 600)%Z then Raise HTTPError else Ok tt.

(** [r = requests.get(url); r.raise_for_status(); r.json()]. *)
Definition response_json (o : http_outcome) : result json :=
  match o with
  | NoResponse => Raise RequestException
  | Response status body =>
      _ ← raise_for_status status;
      match body with
      | Some j => Ok j
      | None => Raise JSONDecodeError
      end
  end.

(** [j.get("value", {}).get("timeSeries", [])], as a [for] loop visits it. *)
Definition time_series (j : json) : result (list json) :=
  v ← py_get j "value" (JDict []);
  ts ← py_get v "timeSeries" (JList []);
  py_iter ts.

(** ** [fetch_current_gage] *)

(** The variable code of a series, as [fetch_current_gage] reads it. *)
Definition current_code (series : json) : result json :=
  variable ← py_get series "variable" (JDict []);
  var ← py_get variable "variableCode" (JList []);
  if truthy var then first ← py_first var; py_get first "value" JNull
  else Ok JNull.

(** One turn of the loop over the series; [gt] holds [g] and [t]. *)
Definition current_step (gt : option float * json) (series : json)
  : result (option float * json) :=
  code ← current_code series;
  if py_eq_str code "00065" then
    vals ← py_get series "values" (JList []);
    has_value ← (if truthy vals
                 then v0 ← py_first vals; x ← py_get v0 "value" JNull; Ok (truthy x)
                 else Ok false);
    if has_value : bool then
      v0 ← py_first vals;
      block ← py_item v0 "value";
      last ← py_last block;
      (* try: g = float(last.get("value")); t = last.get("dateTime")
         except: g = None *)
      match (x ← py_get last "value" JNull; py_float x) with
      | Ok g =>
          match py_get last "dateTime" JNull with
          | Ok t => Ok (Some g, t)
          | Raise _ => Ok (None, gt.2)
          end
      | Raise _ => Ok (None, gt.2)
      end
    else Ok gt
  else Ok gt.

Fixpoint current_loop (gt : option float * json) (items : list json)
  : result (option float * json) :=
  match items with
  | [] => Ok gt
  | series :: rest => gt' ← current_step gt series; current_loop gt' rest
  end.

Definition fetch_current_gage (net : upstream) (site : string)
  : result (option float * json) :=
  j ← response_json (iv_get net site);
  items ← time_series j;
  current_loop (None, JNull) items.

(** ** [fetch_30d_daily] *)

(** An item of [history]: [{"date": date, "value": float(val)}]. *)
Record reading : Type := { date : string; value : float }.

(** A [for] loop that grows a list and may be cut short by an exception:
    what was appended before the exception stays. *)
Fixpoint for_each {A S : Type} (body : A -> S -> S * result unit)
    (items : list A) (s : S) : S * result unit :=
  match items with
  | [] => (s, Ok tt)
  | x :: rest =>
      let '(s', r) := body x s in
      match r with
      | Ok _ => for_each body rest s'
      | Raise e => (s', Raise e)
      end
  end.

(** The body of the innermost loop: [None] when the entry is skipped. *)
Definition daily_entry (entry : json) : result (option reading) :=
  val ← py_get entry "value" JNull;
  dt ← py_get entry "dateTime" (JStr "");
  d ← py_split_T_first dt;
  if not_none_or_empty val
  then x ← py_float val; Ok (Some {| date := d; value := x |})
  else Ok None.

Definition entry_body (entry : json) (history : list reading)
  : list reading * result unit :=
  match daily_entry entry with
  | Ok (Some r) => (history ++ [r], Ok tt)
  | Ok None => (history, Ok tt)
  | Raise e => (history, Raise e)
  end.

(** [vb.get("value", [])], as the loop over [entries] visits it. *)
Definition block_entries (vb : json) : result (list json) :=
  entries ← py_get vb "value" (JList []);
  py_iter entries.

Definition block_body (vb : json) (history : list reading)
  : list reading * result unit :=
  match block_entries vb with
  | Ok entries => for_each entry_body entries history
  | Raise e => (history, Raise e)
  end.

(** [series.get("values", [])], as the loop over [values_blocks] visits it. *)
Definition series_blocks (series : json) : result (list json) :=
  blocks ← py_get series "values" (JList []);
  py_iter blocks.

(** The variable code of a series, as [fetch_30d_daily] reads it. *)
Definition daily_code (series : json) : result json :=
  variable ← py_get series "variable" (JDict []);
  var ← py_get variable "variableCode" (JList [JDict []]);
  first ← py_first var;
  py_get first "value" JNull.

Definition series_body (series : json) (history : list reading)
  : list reading * result unit :=
  match daily_code series with
  | Raise e => (history, Raise e)
  | Ok code =>
      if negb (py_eq_str code "00065") then (history, Ok tt)
      else
        match series_blocks series with
        | Ok blocks => for_each block_body blocks history
        | Raise e => (history, Raise e)
        end
  end.

(** The [try] block: the list built, and the exception it printed if any. *)
Definition daily_scan (j : json) : list reading * result unit :=
  match time_series j with
  | Ok series => for_each series_body series []
  | Raise e => ([], Raise e)
  end.

Definition fetch_30d_daily (net : upstream) (site : string) (days : Z)
  : result (list reading) :=
  j ← response_json (dv_get net site days);
  Ok (daily_scan j).1.

(** ** [risk_from_median] *)

Definition risk_from_median (current median : option float) : string :=
  match current, median with
  | Some c, Some m =>
      if (c <=? m + 0.5)%float then "low"
      else if (c <=? m + 1.5)%float then "medium"
      else "high"
  | _, _ => "unknown"
  end.

(** ** [statistics.median]

    [sorted] is a stable sort by [<].  On data without NaN every stable
    sort returns the list below; with a NaN in the data CPython's answer
    depends on the inner workings of its sort, which are not modelled. *)

Fixpoint insort (x : float) (l : list float) : list float :=
  match l with
  | [] => [x]
  | y :: rest => if (x <? y)%float then x :: l else y :: insort x rest
  end.

Definition sorted (l : list float) : list float :=
  foldl (fun acc x => insort x acc) [] l.

Definition statistics_median (data : list float) : result float :=
  let data := sorted data in
  let n := length data in
  if (n =? 0)%nat then Raise StatisticsError
  else if (n mod 2 =? 1)%nat then
    match data !! (n / 2)%nat with Some x => Ok x | None => Raise IndexError end
  else
    let i := (n / 2)%nat in
    match data !! (i - 1)%nat, data !! i with
    | Some a, Some b => Ok ((a + b) / 2)%float
    | _, _ => Raise IndexError
    end.

(** ** Configuration *)

Record station : Type :=
  { site : string; name : string; lat : float; lon : float; city : string }.

Definition STATIONS : list station := [
  {| site := "01103500"; name := "Charles River at Dover";
     lat := 42.256209; lon := -71.260055; city := "Dover" |};
  {| site := "01104500"; name := "Charles River at Waltham";
     lat := 42.372319; lon := -71.233667; city := "Waltham" |};
  {| site := "01104705"; name := "Charles River at First St (Cambridge)";
     lat := 42.362222; lon := -71.078611; city := "Cambridge" |};
  {| site := "01104710"; name := "Charles River @ Museum of Science (Boston)";
     lat := 42.365931; lon := -71.070051; city := "Boston" |};
  {| site := "01104715"; name := "Charles River at New Charles River Dam (Boston)";
     lat := 42.368889; lon := -71.061667; city := "Boston" |}
].

Record venue : Type :=
  { id : string; vname : string; vlat : float; vlon : float; address : string }.

Definition VENUES : list venue := [
  {| id := "cbi"; vname := "Community Boating, Inc. (CBI)";
     vlat := 42.3599; vlon := -71.0731;
     address := "21 David G Mugar Way, Boston, MA" |};
  {| id := "mit_sailing"; vname := "MIT Sailing Pavilion";
     vlat := 42.3573; vlon := -71.0953;
     address := "134 Memorial Dr, Cambridge, MA" |}
].

(** ** [api_stations] *)

(** An item of the listing. *)
Record station_row : Type := {
  row_site : string;
  row_name : string;
  row_city : string;
  row_lat : float;
  row_lon : float;
  gage_height_ft : option float;
  time : json;
  median_30d : option float;
  history_30d : list reading;
  risk : string
}.

Definition station_report (net : upstream) (s : station) : station_row :=
  let '(cur, t) :=
    match fetch_current_gage net (site s) with
    | Ok gt => gt
    | Raise _ => (None, JNull)
    end in
  let '(hist, median) :=
    match (hist ← fetch_30d_daily net (site s) 30;
           median ← (match hist with
                     | [] => Ok None
                     | _ => Some <$> statistics_median (value <$> hist)
                     end);
           Ok (hist, median)) with
    | Ok hm => hm
    | Raise _ => ([], None)
    end in
  {| row_site := site s; row_name := name s; row_city := city s;
     row_lat := lat s; row_lon := lon s;
     gage_height_ft := cur; time := t;
     median_30d := median; history_30d := hist;
     risk := risk_from_median cur median |}.

Definition api_stations (net : upstream) : list station_row :=
  station_report net <$> STATIONS.

(** ** The subscription registry and [api_subscribe] *)

(** [{"name": data.get("name"), "email": data.get("email")}]. *)
Record person : Type := { pname : json; email : json }.

Abbreviation registry := (gmap string (list person)).

(** [{v['id']: [] for v in VENUES}]. *)
Definition SUBSCRIPTIONS : registry :=
  foldl (fun d v => <[id v := []]> d) ∅ VENUES.

(** The reply of a handler: [jsonify(body), status]. *)
Record reply : Type := { status : Z; body : json }.

(** [vid in d] for a [dict] with [str] keys: the key under which [vid] is
    found, if any.  A [list] or a [dict] cannot be hashed. *)
Definition registry_key (vid : json) : result (option string) :=
  match vid with
  | JStr s => Ok (Some s)
  | JList _ | JDict _ => Raise TypeError
  | _ => Ok None
  end.

Definition required_fields : reply :=
  {| status := 400; body := JDict [("error", JStr "venue_id and email required")] |}.

Definition unknown_venue : reply :=
  {| status := 404; body := JDict [("error", JStr "unknown venue")] |}.

Definition subscribed (vid : json) : reply :=
  {| status := 200; body := JDict [("status", JStr "subscribed"); ("venue", vid)] |}.

(** [request_json] is the value of [request.json].  The result pairs the
    registry the call leaves behind with its reply, or the exception that
    escapes the handler. *)
Definition api_subscribe (request_json : json) (subs : registry)
  : registry * result reply :=
  let data := if truthy request_json then request_json else JDict [] in
  match (vid ← py_get data "venue_id" JNull;
         nm ← py_get data "name" JNull;
         em ← py_get data "email" JNull;
         Ok (vid, {| pname := nm; email := em |})) with
  | Raise e => (subs, Raise e)
  | Ok (vid, p) =>
      if negb (truthy vid) || negb (truthy (email p)) then (subs, Ok required_fields)
      else
        match registry_key vid with
        | Raise e => (subs, Raise e)
        | Ok key =>
            match key ≫= fun k => (fun l => (k, l)) <$> subs !! k with
            | None => (subs, Ok unknown_venue)
            | Some (k, l) => (<[k := l ++ [p]]> subs, Ok (subscribed vid))
            end
        end
  end.

(** [api_subs]: the registry as it stands. *)
Definition api_subs (subs : registry) : registry := subs.

Definition api_venues : list venue := VENUES.

(** ** [notifier_loop]: one turn of the [while] loop *)

(** The C library on the arguments where a result is left to it; outside
    of them C (Annex F) fixes the result: [sin] and [cos] of a NaN or an
    infinity are NaN, [acos] outside [-1, 1] is NaN. *)
Record libm : Type := {
  c_sin : float -> float;
  c_cos : float -> float;
  c_acos : float -> float
}.

Section Notifier.
Context (M : libm).
Local Open Scope float_scope.

Definition libm_sin (x : float) : float :=
  if is_finite x then c_sin M x else nan.
Definition libm_cos (x : float) : float :=
  if is_finite x then c_cos M x else nan.
Definition libm_acos (x : float) : float :=
  if (-1 <=? x) && (x <=? 1) then c_acos M x else nan.

(** CPython's wrapper of a one-argument C function that cannot overflow
    ([math_1]): a NaN out of a number, or an infinity out of a finite
    number, is a "math domain error".  The C library's [errno] is not
    modelled. *)
Definition math_1 (f : float -> float) (x : float) : result float :=
  let r := f x in
  if is_nan r && negb (is_nan x) then Raise ValueError
  else if is_infinity r && is_finite x then Raise ValueError
  else Ok r.

Definition math_sin := math_1 libm_sin.
Definition math_cos := math_1 libm_cos.
Definition math_acos := math_1 libm_acos.

(** [math.radians]: [x * (pi / 180)]. *)
Definition degToRad : float := 0x1.921fb54442d18p+1 / 180.
Definition radians (x : float) : float := x * degToRad.

Definition dist_km (lat1 lon1 lat2 lon2 : float) : result float :=
  s1 ← math_sin (radians lat1);
  s2 ← math_sin (radians lat2);
  c1 ← math_cos (radians lat1);
  c2 ← math_cos (radians lat2);
  c3 ← math_cos (radians (lon2 - lon1));
  a ← math_acos (s1 * s2 + c1 * c2 * c3);
  Ok (a * 6371).

(** [min(items, key=key)]: the first item is kept until an item with a
    smaller key comes; every key is computed. *)
Fixpoint min_loop {A : Type} (key : A -> result float)
    (best : A) (best_key : float) (items : list A) : result A :=
  match items with
  | [] => Ok best
  | x :: rest =>
      k ← key x;
      if k <? best_key then min_loop key x k rest
      else min_loop key best best_key rest
  end.

Definition py_min {A : Type} (key : A -> result float) (items : list A) : result A :=
  match items with
  | [] => Raise ValueError
  | x :: rest => k ← key x; min_loop key x k rest
  end.

Definition station_key (v : venue) (s : station_row) : result float :=
  dist_km (row_lat s) (row_lon s) (vlat v) (vlon v).

Definition nearest_station (v : venue) (stations : list station_row)
  : result station_row :=
  py_min (station_key v) stations.

(** What the loop prints for a venue:
    [[NOTIFY] Venue {v['name']} risk={nearest['risk']}. Notifying {len(subs)} subscribers.] *)
Record notification : Type :=
  { n_venue : string; n_risk : string; n_count : nat }.

Definition elevated (r : string) : bool :=
  String.eqb r "medium" || String.eqb r "high".

(** The body of [for v in VENUES]. *)
Definition notify_venue (stations : list station_row) (subs : registry)
    (v : venue) : result (option notification) :=
  nearest ← nearest_station v stations;
  if elevated (risk nearest) then
    let l := default [] (subs !! id v) in
    match l with
    | [] => Ok None
    | _ => Ok (Some {| n_venue := vname v; n_risk := risk nearest;
                       n_count := length l |})
    end
  else Ok None.

Definition venue_body (stations : list station_row) (subs : registry)
    (v : venue) (printed : list notification)
  : list notification * result unit :=
  match notify_venue stations subs v with
  | Ok (Some n) => (printed ++ [n], Ok tt)
  | Ok None => (printed, Ok tt)
  | Raise e => (printed, Raise e)
  end.

Definition notify_all (venues : list venue) (stations : list station_row)
    (subs : registry) : list notification * result unit :=
  for_each (venue_body stations subs) venues [].

(** One cycle: [listing] is what [requests.get(".../api/stations").json()]
    gave.  The result is what was printed and the exception the [try]
    caught, if any. *)
Definition notifier_cycle (listing : result (list station_row))
    (subs : registry) : list notification * result unit :=
  match listing with
  | Ok stations => notify_all VENUES stations subs
  | Raise e => ([], Raise e)
  end.
End Notifier.

(** ** The operations that see the registry *)

Inductive operation : Type :=
| OpStations (net : upstream)
| OpVenues
| OpSubscribe (request_json : json)
| OpSubscriptions
| OpNotifierCycle (M : libm) (listing : result (list station_row)).

Definition run_op (subs : registry) (op : operation) : registry :=
  match op with
  | OpSubscribe request_json => (api_subscribe request_json subs).1
  | _ => subs
  end.

Definition run_ops (ops : list operation) : registry :=
  foldl run_op SUBSCRIPTIONS ops.

(** ** Notions the properties are stated with *)

(** The four risk labels. *)
Definition labels : list string := ["unknown"; "low"; "medium"; "high"].

(** The entries of one series that [fetch_30d_daily] is to read: those of
    every block of a series tagged 00065, none of any other series. *)
Definition series_entries (series : json) : result (list json) :=
  code ← daily_code series;
  if py_eq_str code "00065" then
    blocks ← series_blocks series;
    ess ← mapM block_entries blocks;
    Ok (concat ess)
  else Ok [].

(** All of them, in the order of the response. *)
Definition matching_entries (j : json) : result (list json) :=
  series ← time_series j;
  ess ← mapM series_entries series;
  Ok (concat ess).

(** The value of an entry ([None] when it has none). *)
Definition entry_value (entry : json) : json :=
  match entry with
  | JDict fields => default JNull (dict_get fields "value")
  | _ => JNull
  end.

(** An entry whose value is neither null nor empty. *)
Definition has_value (entry : json) : bool := not_none_or_empty (entry_value entry).

(** An entry the loop body gets through without an exception. *)
Definition readable (entry : json) : bool := is_ok (daily_entry entry).

Definition reading_of (entry : json) : option reading :=
  match daily_entry entry with
  | Ok r => r
  | Raise _ => None
  end.

(** The entries before the first one that is not readable. *)
Fixpoint readable_prefix (entries : list json) : list json :=
  match entries with
  | e :: rest => if readable e then e :: readable_prefix rest else []
  | [] => []
  end.

(** A series that does not carry the code 00065, as each fetcher reads it. *)
Definition other_code_current (series : json) : Prop :=
  exists c, current_code series = Ok c /\ py_eq_str c "00065" = false.


(** The value of a float as an integer multiple of 2^-1074, the least
    positive binary64 number; 0 for what has no value. *)
Definition zval (f : spec_float) : Z :=
  match f with
  | S754_finite s m e => cond_Zopp s (Zpos m * 2 ^ (e + 1074))%Z
  | _ => 0%Z
  end.

(** Zero, or finite with an exponent that binary64 has. *)
Definition tame (f : spec_float) : bool :=
  match f with
  | S754_zero _ => true
  | S754_finite _ _ e => (-1074 <=? e)%Z
  | _ => false
  end.

Definition fval (x : float) : Z := zval (Prim2SF x).
Definition ftame (x : float) : bool := tame (Prim2SF x).

(** The median as statistics states it, without reference to a sorted
    copy: [x] is a [k]-th smallest item of [data] (counting from 1) when it
    is an item, fewer than [k] items are below it and at least [k] items are
    not above it.  The median of an odd number [n] of items is the middle
    one; of an even number, the mean of the two middle ones. *)
Fixpoint count (p : float -> bool) (data : list float) : nat :=
  match data with
  | [] => 0
  | y :: rest => (if p y then 1 else 0) + count p rest
  end.

Definition kth_smallest (k : nat) (x : float) (data : list float) : Prop :=
  x ∈ data /\
  count (fun y => y <? x)%float data < k <= count (fun y => y <=? x)%float data.

Definition statistical_median (m : float) (data : list float) : Prop :=
  let n := length data in
  if (n mod 2 =? 1)%nat then kth_smallest (n / 2 + 1) m data
  else exists a b, kth_smallest (n / 2) a data /\
                   kth_smallest (n / 2 + 1) b data /\
                   m = ((a + b) / 2)%float.

(** A float that is a number. *)
Definition number (x : float) : Prop := is_nan x = false.

Definition ascending (l : list float) : Prop :=
  StronglySorted (fun a b => (a <=? b)%float = true) l.

(** ** Sample responses *)

Definition variable_code (code : string) : json :=
  JDict [("variableCode", JList [JDict [("value", JStr code)]])].

Definition daily (day val : json) : json :=
  JDict [("value", val); ("dateTime", day)].

Definition one_series (code : string) (entries : list json) : json :=
  let block := JDict [("value", JList entries)] in
  let series := JDict [("variable", variable_code code); ("values", JList [block])] in
  JDict [("value", JDict [("timeSeries", JList [series])])].

(** Gage height with a missing and an empty value in between. *)
Definition dv_sample_entries : list json := [
  daily (JStr "2024-05-01T00:00:00.000") (JStr "3.21");
  daily (JStr "2024-05-02T00:00:00.000") JNull;
  daily (JStr "2024-05-03T00:00:00.000") (JStr "");
  daily (JStr "2024-05-04T00:00:00.000") (JStr "3.40")
].
Definition dv_sample : json := one_series "00065" dv_sample_entries.

(** Gage height with a remark in place of a number on the second day. *)
Definition dv_ice_entries : list json := [
  daily (JStr "2024-01-10T00:00:00.000") (JStr "2.90");
  daily (JStr "2024-01-11T00:00:00.000") (JStr "Ice");
  daily (JStr "2024-01-12T00:00:00.000") (JStr "3.10")
].
Definition dv_ice : json := one_series "00065" dv_ice_entries.




Definition dover : station :=
  {| site := "01103500"; name := "Charles River at Dover";
     lat := 42.256209; lon := -71.260055; city := "Dover" |}.

(** An upstream that gives the same outcome to every request. *)
Definition answering (o : http_outcome) : upstream :=
  {| iv_get := fun _ => o; dv_get := fun _ _ => o |}.

Definition gauged : upstream := answering (Response 200 (Some dv_sample)).


(** The fields of a request that is a JSON object. *)
Definition field (fields : list (string * json)) (key : string) : json :=
  default JNull (dict_get fields key).

Definition request_person (fields : list (string * json)) : person :=
  {| pname := field fields "name"; email := field fields "email" |}.

(** The configured venue identifiers. *)
Definition venue_ids : list string := id <$> VENUES.

(** Sample requests. *)
Definition ann : list (string * json) :=
  [("venue_id", JStr "cbi"); ("name", JStr "Ann"); ("email", JStr "ann@example.org")].

Definition no_email : list (string * json) :=
  [("venue_id", JStr "cbi"); ("name", JStr "Ann"); ("email", JStr "")].

Definition elsewhere : list (string * json) :=
  [("venue_id", JStr "harbor"); ("email", JStr "ann@example.org")].


(** A C library of which only the results that C fixes exactly are known:
    [sin 0 = 0], [cos 0 = 1], [acos 1 = 0] (Annex F).  Elsewhere it answers
    NaN, which [math_1] reports as a domain error. *)
Definition libm_exact_points : libm :=
  {| c_sin := fun x => if (x =? 0)%float then x else nan;
     c_cos := fun x => if (x =? 0)%float then 1%float else nan;
     c_acos := fun x => if (x =? 1)%float then 0%float else nan |}.

(** A row of the listing and a venue at latitude 0, longitude 0. *)
Definition origin_row (site_id risk_label : string) : station_row :=
  {| row_site := site_id; row_name := site_id; row_city := "";
     row_lat := 0; row_lon := 0;
     gage_height_ft := None; time := JNull; median_30d := None;
     history_30d := []; risk := risk_label |}.

Definition origin_venue : venue :=
  {| id := "cbi"; vname := "Community Boating, Inc. (CBI)";
     vlat := 0; vlon := 0; address := "" |}.


(** The notification of a venue, if this cycle prints one. *)
Definition notification_of (M : libm) (stations : list station_row)
    (subs : registry) (v : venue) : option notification :=
  match notify_venue M stations subs v with
  | Ok n => n
  | Raise _ => None
  end.

(** The venues a cycle gets to: those before the first venue for which
    no nearest station is found (the exception ends the cycle). *)
Fixpoint served (M : libm) (stations : list station_row) (venues : list venue)
  : list venue :=
  match venues with
  | v :: rest =>
      if is_ok (nearest_station M v stations) then v :: served M stations rest else []
  | [] => []
  end.


(** ** Further notions and samples *)

(** The labels by growing risk; [unknown] is below them all. *)
Definition severity (label : string) : nat :=
  if String.eqb label "low" then 1
  else if String.eqb label "medium" then 2
  else if String.eqb label "high" then 3
  else 0.

(** A value that cannot be a key of a [dict]. *)
Definition unhashable (v : json) : bool :=
  match v with JList _ | JDict _ => true | _ => false end.

(** The person a request adds to the list of venue [k], if it adds one:
    the request is a JSON object that names the venue and has an email that
    is not falsy. *)
Definition accepted (k : string) (op : operation) : option person :=
  match op with
  | OpSubscribe (JDict fields) =>
      if py_eq_str (field fields "venue_id") k && truthy (field fields "email")
      then Some (request_person fields)
      else None
  | _ => None
  end.

(** An upstream that answers for one station only and is out of reach for
    the others. *)
Definition dover_only : upstream :=
  {| iv_get := fun s => if String.eqb s "01103500"
                        then Response 200 (Some dv_sample) else NoResponse;
     dv_get := fun s _ => if String.eqb s "01103500"
                          then Response 200 (Some dv_sample) else NoResponse |}.

(** A row whose latitude is NaN. *)
Definition uncharted_row (site_id risk_label : string) : station_row :=
  {| row_site := site_id; row_name := site_id; row_city := "";
     row_lat := nan; row_lon := 0;
     gage_height_ft := None; time := JNull; median_30d := None;
     history_30d := []; risk := risk_label |}.

(** The entry [fetch_current_gage] reads of a series:
    [vals[0]["value"][-1]]. *)
Definition latest_entry (series : json) : result json :=
  vals ← py_get series "values" (JList []);
  v0 ← py_first vals;
  block ← py_item v0 "value";
  py_last block.

(** [float(last.get("value"))]. *)
Definition entry_float (entry : json) : result float :=
  x ← py_get entry "value" JNull;
  py_float x.

(** The [dateTime] of an entry ([None] when it has none). *)
Definition entry_time (entry : json) : json :=
  match entry with
  | JDict fields => default JNull (dict_get fields "dateTime")
  | _ => JNull
  end.

(** A series tagged 00065, as [fetch_current_gage] reads the tag. *)
Definition gage_height_series (series : json) : Prop :=
  exists c, current_code series = Ok c /\ py_eq_str c "00065" = true.

(** [r] is the reading of an entry that stands in a block of a series of
    [j] tagged 00065 (as [fetch_30d_daily] reads the tag). *)
Definition reading_in (j : json) (r : reading) : Prop :=
  exists series s c blocks vb entries e,
    time_series j = Ok series /\ s ∈ series /\
    daily_code s = Ok c /\ py_eq_str c "00065" = true /\
    series_blocks s = Ok blocks /\ vb ∈ blocks /\
    block_entries vb = Ok entries /\ e ∈ entries /\
    daily_entry e = Ok (Some r).

(** A series of gage height with one block of entries, and a response
    with two of them. *)
Definition gage_series (entries : list json) : json :=
  JDict [("variable", variable_code "00065");
         ("values", JList [JDict [("value", JList entries)]])].

Definition iv_two_series : json :=
  JDict [("value", JDict [("timeSeries", JList [
    gage_series [daily (JStr "2024-01-10T09:15:00.000-05:00") (JStr "2.90")];
    gage_series [daily (JStr "2024-01-10T09:30:00.000-05:00") (JStr "Ice")]])])].

(** A series whose list of variable codes is empty. *)
Definition no_code_series : json :=
  JDict [("variable", JDict [("variableCode", JList [])]);
         ("values", JList [JDict [("value", JList [
            daily (JStr "2024-05-02T00:00:00.000") (JStr "9.99")])]])].

(** A daily-values response with that series in the second place. *)
Definition dv_no_code : json :=
  JDict [("value", JDict [("timeSeries", JList [
    gage_series [daily (JStr "2024-05-01T00:00:00.000") (JStr "3.21")];
    no_code_series;
    gage_series [daily (JStr "2024-05-03T00:00:00.000") (JStr "3.40")]])])].

(** Two values of [spec_float] that are the same number: equal, or both a
    zero (of any sign). *)
Definition same_value (a b : spec_float) : Prop :=
  a = b \/ exists s s', a = S754_zero s /\ b = S754_zero s'.

(** The rounding error allowed to a sum below 2^21, in units of 2^-1074:
    3 * 2^-32, less than a billionth of a foot. *)
Definition slack : Z := 3 * 2 ^ 1042.

(** * Properties *)

(** ** Floating-point order *)

Lemma SFcompare_antisym (a b : spec_float) :
  SFcompare b a = CompOpp <$> SFcompare a b.
Proof.
  destruct a as [sa|sa| |sa ma ea], b as [sb|sb| |sb mb eb]; simpl;
    try reflexivity; try (destruct sa; reflexivity); try (destruct sb; reflexivity);
    try (destruct sa, sb; reflexivity).
  destruct sa, sb; simpl; try reflexivity;
    rewrite (Z.compare_antisym ea eb); destruct (ea ?= eb)%Z; simpl; try reflexivity;
    change (PosDef.Pos.compare_cont Eq mb ma) with (mb ?= ma)%positive;
    change (PosDef.Pos.compare_cont Eq ma mb) with (ma ?= mb)%positive;
    rewrite (Pos.compare_antisym ma mb); destruct (ma ?= mb)%positive; reflexivity.
Qed.

Lemma ltb_not_leb (a b : float) : (a <? b)%float = true -> (b <=? a)%float = false.
Proof.
  rewrite FloatAxioms.ltb_spec, FloatAxioms.leb_spec. unfold SFltb, SFleb.
  rewrite (SFcompare_antisym (Prim2SF a) (Prim2SF b)).
  destruct (SFcompare (Prim2SF a) (Prim2SF b)) as [[]|]; simpl; congruence.
Qed.

Lemma leb_refl (a : float) : is_nan a = false -> (a <=? a)%float = true.
Proof.
  unfold is_nan. rewrite FloatAxioms.eqb_spec, FloatAxioms.leb_spec. unfold SFeqb, SFleb.
  destruct (SFcompare (Prim2SF a) (Prim2SF a)) as [[]|]; simpl; congruence.
Qed.

Lemma SFcompare_refl (f : spec_float) : f <> S754_nan -> SFcompare f f = Some Eq.
Proof.
  destruct f as [s|s| |s m e]; simpl; intros H; try congruence.
  - destruct s; reflexivity.
  - rewrite Z.compare_refl.
    change (PosDef.Pos.compare_cont Eq m m) with (m ?= m)%positive.
    rewrite Pos.compare_refl. destruct s; reflexivity.
Qed.

Lemma is_nan_Prim2SF (x : float) :
  is_nan x = match Prim2SF x with S754_nan => true | _ => false end.
Proof.
  unfold is_nan. rewrite FloatAxioms.eqb_spec. unfold SFeqb.
  destruct (Prim2SF x) eqn:E; try reflexivity;
    rewrite SFcompare_refl by congruence; reflexivity.
Qed.

(** Rounding an integer mantissa never makes a NaN. *)
Lemma shr_1_nonneg (r : shr_record) : (0 <= shr_m r)%Z -> (0 <= shr_m (shr_1 r))%Z.
Proof.
  destruct r as [m b s]; simpl. destruct m as [|p|p]; simpl; try lia.
  destruct p; simpl; lia.
Qed.

Lemma iter_shr_1_nonneg (p : positive) (r : shr_record) :
  (0 <= shr_m r)%Z -> (0 <= shr_m (SpecFloat.iter_pos shr_1 p r))%Z.
Proof.
  revert r. induction p as [p IH|p IH|]; simpl; intros r H;
    auto using shr_1_nonneg.
Qed.

Lemma shr_nonneg (r : shr_record) (e n : Z) :
  (0 <= shr_m r)%Z -> (0 <= shr_m (shr r e n).1)%Z.
Proof.
  intros H. unfold shr. destruct n; simpl; auto using iter_shr_1_nonneg.
Qed.

Lemma shr_fexp_nonneg (m e : Z) (l : location) :
  (0 <= m)%Z -> (0 <= shr_m (shr_fexp prec emax m e l).1)%Z.
Proof.
  intros H. unfold shr_fexp. apply shr_nonneg.
  destruct l as [|[]]; simpl; exact H.
Qed.

Lemma round_nearest_even_nonneg (m : Z) (l : location) :
  (0 <= m)%Z -> (0 <= round_nearest_even m l)%Z.
Proof.
  intros H. unfold round_nearest_even.
  destruct l as [|[]]; try lia. destruct (IntDef.Z.even m); lia.
Qed.

Lemma binary_round_aux_not_nan (s : bool) (m e : Z) (l : location) :
  (0 <= m)%Z -> binary_round_aux prec emax s m e l <> S754_nan.
Proof.
  intros H. unfold binary_round_aux.
  pose proof (shr_fexp_nonneg m e l H) as H1.
  destruct (shr_fexp prec emax m e l) as [r1 e1]; simpl in H1.
  pose proof (shr_fexp_nonneg _ e1 loc_Exact
                (round_nearest_even_nonneg _ (loc_of_shr_record r1) H1)) as H2.
  destruct (shr_fexp prec emax _ e1 loc_Exact) as [r2 e2]; simpl in H2.
  destruct (shr_m r2) as [|p|p]; try discriminate; try lia.
  destruct (e2 <=? emax - prec)%Z; discriminate.
Qed.

Lemma binary_normalize_not_nan (m e : Z) (sz : bool) :
  binary_normalize prec emax m e sz <> S754_nan.
Proof.
  unfold binary_normalize, binary_round.
  destruct m as [|p|p]; try discriminate;
    destruct (shl_align p e _) as [mz ez];
    apply binary_round_aux_not_nan; lia.
Qed.

(** A number plus a finite non-zero constant is a number. *)
Lemma add_finite_not_nan (x c : float) (s : bool) (m : positive) (e : Z) :
  Prim2SF c = S754_finite s m e ->
  is_nan x = false -> is_nan (x + c) = false.
Proof.
  intros Hc. rewrite !is_nan_Prim2SF, add_spec, Hc. unfold SF64add, SFadd.
  destruct (Prim2SF x) as [sx|sx| |sx mx ex]; try discriminate; try reflexivity.
  intros _.
  match goal with |- context [binary_normalize ?p ?q ?a ?b ?c] =>
    pose proof (binary_normalize_not_nan a b c) as H;
    destruct (binary_normalize p q a b c) end; congruence.
Qed.

Ltac SFcompare_cases a b c :=
  destruct a as [?|?| |? ?ma ?ea], b as [?|?| |? ?mb ?eb], c as [?|?| |? ?mc ?ec];
  simpl; try discriminate;
  repeat match goal with s : bool |- _ => destruct s end;
  simpl; try discriminate; try reflexivity;
  repeat match goal with
         | |- context [PosDef.Pos.compare_cont Eq ?x ?y] =>
             change (PosDef.Pos.compare_cont Eq x y) with (x ?= y)%positive
         end;
  repeat match goal with
         | |- context [(?x ?= ?y)%Z] => destruct (Z.compare_spec x y)
         end;
  simpl; try discriminate; try reflexivity; try lia;
  repeat match goal with
         | |- context [(?x ?= ?y)%positive] => destruct (Pos.compare_spec x y)
         end;
  simpl; try discriminate; try reflexivity; try lia.

Lemma SFltb_trans (a b c : spec_float) :
  SFltb a b = true -> SFltb b c = true -> SFltb a c = true.
Proof. unfold SFltb. SFcompare_cases a b c. Qed.

Lemma SFltb_leb_trans (a b c : spec_float) :
  SFltb a b = true -> SFleb b c = true -> SFleb a c = true.
Proof. unfold SFltb, SFleb. SFcompare_cases a b c. Qed.

Lemma SFcompare_total (a b : spec_float) :
  a <> S754_nan -> b <> S754_nan -> SFltb a b = false -> SFleb b a = true.
Proof.
  unfold SFltb, SFleb. rewrite (SFcompare_antisym a b).
  destruct a as [?|?| |? ma ea], b as [?|?| |? mb eb]; simpl; try congruence;
    intros _ _; repeat match goal with s : bool |- _ => destruct s end;
    simpl; try congruence;
    match goal with |- context [match ?c with _ => _ end] => destruct c end;
    simpl; try congruence;
    match goal with |- context [match ?c with _ => _ end] => destruct c end;
    simpl; congruence.
Qed.

Lemma ltb_trans (a b c : float) :
  (a <? b)%float = true -> (b <? c)%float = true -> (a <? c)%float = true.
Proof. rewrite !FloatAxioms.ltb_spec. apply SFltb_trans. Qed.

Lemma ltb_not_nan_r (a b : float) : (a <? b)%float = true -> is_nan b = false.
Proof.
  rewrite FloatAxioms.ltb_spec, is_nan_Prim2SF. unfold SFltb.
  destruct (Prim2SF b); try reflexivity.
  destruct (Prim2SF a); discriminate.
Qed.

(** ** Rounding of sums

    [SFadd] rounds the exact sum of two floats; the lemmas below bound the
    error by three units of the exponent that the sum calls for, which is
    enough to tell apart sums that differ by a millionth when the median is
    of moderate size. *)

Section Rounding.
Local Open Scope Z_scope.

Lemma digits2_pos_bounds (m : positive) :
  2 ^ (Zpos (digits2_pos m) - 1) <= Zpos m < 2 ^ Zpos (digits2_pos m).
Proof.
  induction m as [p IH|p IH|]; cbn [digits2_pos].
  - rewrite Pos2Z.inj_succ. replace (Z.succ (Zpos (digits2_pos p)) - 1) with (Z.succ (Zpos (digits2_pos p) - 1)) by lia.
    rewrite !Z.pow_succ_r by lia. lia.
  - rewrite Pos2Z.inj_succ. replace (Z.succ (Zpos (digits2_pos p)) - 1) with (Z.succ (Zpos (digits2_pos p) - 1)) by lia.
    rewrite !Z.pow_succ_r by lia. lia.
  - change (1 <= 1 < 2). lia.
Qed.

Lemma shr_1_div2 (r : shr_record) : 0 <= shr_m r -> shr_m (shr_1 r) = shr_m r / 2.
Proof.
  destruct r as [m b s]; cbn [shr_m shr_1]. destruct m as [|p|p]; intros H; try lia.
  - reflexivity.
  - destruct p; cbn [shr_m].
    + rewrite Pos2Z.inj_xI. Z.to_euclidean_division_equations. lia.
    + rewrite Pos2Z.inj_xO. Z.to_euclidean_division_equations. lia.
    + reflexivity.
Qed.

Lemma shr_1_nn (r : shr_record) : 0 <= shr_m r -> 0 <= shr_m (shr_1 r).
Proof. intros H. rewrite shr_1_div2 by assumption. apply Z.div_pos; lia. Qed.

Lemma iter_shr_1_div (p : positive) (r : shr_record) :
  0 <= shr_m r ->
  shr_m (SpecFloat.iter_pos shr_1 p r) = shr_m r / 2 ^ Zpos p.
Proof.
  revert r. induction p as [p IH|p IH|]; intros r H; cbn [SpecFloat.iter_pos].
  - assert (0 <= shr_m (shr_1 r)) as H1 by (apply shr_1_nn, H).
    assert (0 <= shr_m (SpecFloat.iter_pos shr_1 p (shr_1 r))) as H2.
    { rewrite IH by assumption. apply Z.div_pos; lia. }
    rewrite IH, IH, shr_1_div2 by assumption.
    rewrite !Z.div_div by lia. f_equal.
    replace (Zpos p~1) with (Zpos p + Zpos p + 1) by lia.
    rewrite !Z.pow_add_r by lia. change (2 ^ 1) with 2. ring.
  - assert (0 <= shr_m (SpecFloat.iter_pos shr_1 p r)) as H2.
    { rewrite IH by assumption. apply Z.div_pos; lia. }
    rewrite IH, IH by assumption.
    rewrite !Z.div_div by lia. f_equal.
    replace (Zpos p~0) with (Zpos p + Zpos p) by lia.
    rewrite !Z.pow_add_r by lia. ring.
  - rewrite shr_1_div2 by assumption. reflexivity.
Qed.

Lemma fexp_eq (x : Z) : fexp prec emax x = Z.max (x - 53) (-1074).
Proof. reflexivity. Qed.

Lemma Zdigits2_bounds (m : Z) :
  0 < m -> 0 < Zdigits2 m /\ 2 ^ (Zdigits2 m - 1) <= m < 2 ^ Zdigits2 m.
Proof.
  destruct m as [|p|p]; try lia. intros _. cbn [Zdigits2].
  split; [lia|apply digits2_pos_bounds].
Qed.

Lemma pow2_pos (k : Z) : 0 <= k -> 0 < 2 ^ k.
Proof. intros. apply Z.pow_pos_nonneg; lia. Qed.

Lemma pow2_le (a b : Z) : 0 <= a <= b -> 2 ^ a <= 2 ^ b.
Proof. intros. apply Z.pow_le_mono_r; lia. Qed.

Lemma pow2_lt_inv (a b : Z) : 0 <= b -> 2 ^ a < 2 ^ b -> a < b.
Proof. intros Hb H. apply (Z.pow_lt_mono_r_iff 2); lia. Qed.

Lemma div_pow2_bounds (m k : Z) :
  0 <= m -> 0 <= k -> 0 <= m / 2 ^ k /\ m / 2 ^ k * 2 ^ k <= m < (m / 2 ^ k + 1) * 2 ^ k.
Proof.
  intros Hm Hk. pose proof (pow2_pos k Hk) as Hp.
  pose proof (Z.div_mod m (2 ^ k)) as Hd.
  pose proof (Z.mod_pos_bound m (2 ^ k) Hp) as Hb.
  split; [apply Z.div_pos; lia|]. nia.
Qed.

(** [shr]: a shift to the right by [n] places when [n] is positive. *)
Lemma shr_spec (r : shr_record) (e n : Z) :
  0 <= shr_m r ->
  snd (shr r e n) = e + Z.max 0 n /\
  shr_m (fst (shr r e n)) = shr_m r / 2 ^ Z.max 0 n.
Proof.
  intros H. unfold shr. destruct n as [|p|p]; cbn [fst snd].
  - rewrite Z.add_0_r. change (2 ^ Z.max 0 0) with 1. rewrite Z.div_1_r. auto.
  - rewrite iter_shr_1_div by assumption.
    replace (Z.max 0 (Zpos p)) with (Zpos p) by lia. auto.
  - replace (Z.max 0 (Zneg p)) with 0 by lia. rewrite Z.add_0_r.
    change (2 ^ 0) with 1. rewrite Z.div_1_r. auto.
Qed.

Lemma shr_fexp_spec (m e : Z) (l : location) :
  0 <= m ->
  let k := Z.max 0 (fexp prec emax (Zdigits2 m + e) - e) in
  snd (shr_fexp prec emax m e l) = e + k /\
  shr_m (fst (shr_fexp prec emax m e l)) = m / 2 ^ k.
Proof.
  intros H k. unfold shr_fexp.
  assert (shr_m (shr_record_of_loc m l) = m) as Hm by (destruct l as [|[]]; reflexivity).
  destruct (shr_spec (shr_record_of_loc m l) e (fexp prec emax (Zdigits2 m + e) - e))
    as [H1 H2]; [rewrite Hm; exact H|].
  rewrite Hm in H2. auto.
Qed.

Lemma round_nearest_even_bounds (m : Z) (l : location) :
  m <= round_nearest_even m l <= m + 1.
Proof.
  unfold round_nearest_even. destruct l as [|[]]; try lia.
  destruct (Z.even m); lia.
Qed.

Lemma pow2_split (a b : Z) : 0 <= a -> 0 <= b -> 2 ^ (a + b) = 2 ^ a * 2 ^ b.
Proof. intros. apply Z.pow_add_r; assumption. Qed.

Lemma mul_le_lt (p m A Q : Z) : 0 < A -> p <= m -> m * A < Q -> p * A < Q.
Proof. intros HA Hp HQ. nia. Qed.

Lemma scale_bounds (q K m A : Z) :
  0 < A -> q * K <= m < (q + 1) * K ->
  q * (K * A) <= m * A < q * (K * A) + K * A.
Proof. intros HA [H1 H2]. nia. Qed.

Lemma lt_cancel (a P W X : Z) : 0 < W -> a * W <= X -> X < P * W -> a < P.
Proof. intros HW H1 H2. nia. Qed.

Lemma mul_between (a b W : Z) :
  0 < W -> a <= b <= a + 1 -> a * W <= b * W <= a * W + W.
Proof. intros HW [H1 H2]. nia. Qed.

Lemma binary_round_aux_bound (s : bool) (m e b : Z) :
  0 < m -> -1074 <= e -> -1074 <= b <= 1000 ->
  m * 2 ^ (e + 1074) < 2 ^ (b + 1074) ->
  e <= Z.max (b - 53) (-1074) ->
  let f := binary_round_aux prec emax s m e loc_Exact in
  tame f = true /\
  Z.abs (zval f - cond_Zopp s (m * 2 ^ (e + 1074)))
    <= 3 * 2 ^ (Z.max (b - 53) (-1074) + 1074).
Proof.
  intros Hm He Hb HX HeE f. subst f.
  remember (Z.max (b - 53) (-1074)) as E eqn:HE.
  set (A := 2 ^ (e + 1074)) in *.
  assert (0 < A) as HA by (apply pow2_pos; lia).
  set (B := 2 ^ (E + 1074)).
  assert (0 < B) as HB by (apply pow2_pos; lia).
  (* the digits of m *)
  destruct (Zdigits2_bounds m Hm) as [Hd1 [Hlo1 Hhi1]].
  set (d1 := Zdigits2 m) in *.
  assert (d1 + e <= b) as Hde.
  { assert (2 ^ (d1 - 1 + (e + 1074)) < 2 ^ (b + 1074)) as H.
    { rewrite pow2_split by lia. fold A. apply (mul_le_lt _ m A); assumption. }
    apply pow2_lt_inv in H; lia. }
  (* first shift *)
  unfold binary_round_aux.
  destruct (shr_fexp_spec m e loc_Exact) as [He1 Hm1]; [lia|].
  fold d1 in He1, Hm1. rewrite fexp_eq in He1, Hm1.
  remember (Z.max 0 (Z.max (d1 + e - 53) (-1074) - e)) as k1 eqn:Hk1def.
  destruct (shr_fexp prec emax m e loc_Exact) as [r1 e1]. cbn [fst snd] in He1, Hm1.
  assert (0 <= k1) as Hk1 by lia.
  destruct (div_pow2_bounds m k1) as [Hm1n [Hm1lo Hm1hi]]; [lia|lia|].
  rewrite <- Hm1 in Hm1n, Hm1lo, Hm1hi.
  set (m1 := shr_m r1) in *.
  assert (e1 <= E /\ -1074 <= e1) as [He1E He1lo] by lia.
  set (W := 2 ^ (e1 + 1074)).
  assert (W = 2 ^ k1 * A) as HW.
  { unfold W, A. rewrite He1. replace (e + k1 + 1074) with (k1 + (e + 1074)) by lia.
    apply pow2_split; lia. }
  assert (0 < W) as HWpos by (apply pow2_pos; lia).
  assert (W <= B) as HWB by (apply pow2_le; lia).
  set (X := m * A) in *.
  assert (m1 * W <= X < m1 * W + W) as [HXlo HXhi].
  { rewrite HW. unfold X. apply scale_bounds; [exact HA|lia]. }
  (* rounding *)
  pose proof (round_nearest_even_bounds m1 (loc_of_shr_record r1)) as Hm2.
  set (m2 := round_nearest_even m1 (loc_of_shr_record r1)) in *.
  (* second shift *)
  destruct (shr_fexp_spec m2 e1 loc_Exact) as [He2 Hm3]; [lia|].
  rewrite fexp_eq in He2, Hm3.
  remember (Z.max 0 (Z.max (Zdigits2 m2 + e1 - 53) (-1074) - e1)) as k2 eqn:Hk2def.
  destruct (shr_fexp prec emax m2 e1 loc_Exact) as [r2 e2]. cbn [fst snd] in He2, Hm3.
  assert (0 <= k2) as Hk2 by lia.
  destruct (div_pow2_bounds m2 k2) as [Hm3n [Hm3lo Hm3hi]]; [lia|lia|].
  rewrite <- Hm3 in Hm3n, Hm3lo, Hm3hi.
  set (m3 := shr_m r2) in *.
  assert (e2 <= E + 1) as He2E.
  { destruct (Z.eq_dec m2 0) as [H0|H0].
    - rewrite H0 in *. change (Zdigits2 0) with 0 in *. lia.
    - destruct (Zdigits2_bounds m2) as [Hd2 [Hlo2 Hhi2]]; [lia|].
      assert (Zdigits2 m2 + e1 <= b + 1); [|lia].
      assert (0 <= b - e1) as Hbe by lia.
      assert (m1 < 2 ^ (b - e1)) as Hm1b.
      { assert (2 ^ (b + 1074) = 2 ^ (b - e1) * W) as Hs.
        { unfold W. rewrite <- pow2_split by lia. f_equal. lia. }
        rewrite Hs in HX. fold X in HX. apply (lt_cancel m1 _ W X); assumption. }
      assert (2 ^ (Zdigits2 m2 - 1) <= 2 ^ (b - e1)) as Hp by lia.
      apply Z.pow_le_mono_r_iff in Hp; lia. }
  set (W2 := 2 ^ (e2 + 1074)).
  assert (W2 = 2 ^ k2 * W) as HW2.
  { unfold W2, W. rewrite He2. replace (e1 + k2 + 1074) with (k2 + (e1 + 1074)) by lia.
    apply pow2_split; lia. }
  assert (W2 <= 2 * B) as HW2B.
  { unfold W2, B. replace (2 * 2 ^ (E + 1074)) with (2 ^ (E + 1 + 1074)).
    - apply pow2_le; lia.
    - replace (E + 1 + 1074) with (1 + (E + 1074)) by lia.
      rewrite pow2_split by lia. reflexivity. }
  assert (m3 * W2 <= m2 * W < m3 * W2 + W2) as [HVlo HVhi].
  { rewrite HW2. apply scale_bounds; [exact HWpos|lia]. }
  assert (m1 * W <= m2 * W <= m1 * W + W) as [H12lo H12hi]
    by (apply mul_between; [exact HWpos|exact Hm2]).
  assert (Z.abs (m3 * W2 - X) <= 3 * B) as Hbound by lia.
  destruct m3 as [|p3|p3] eqn:Ep3; [| |lia].
  - cbn [tame zval]. split; [reflexivity|].
    replace (0 - cond_Zopp s X) with (cond_Zopp s (0 * W2 - X)) by (destruct s; cbn; lia).
    destruct s; cbn [cond_Zopp]; lia.
  - replace (e2 <=? emax - prec) with true.
    + cbn [tame zval]. split; [apply Z.leb_le; lia|].
      fold W2.
      replace (cond_Zopp s (Zpos p3 * W2) - cond_Zopp s X)
        with (cond_Zopp s (Zpos p3 * W2 - X)) by (destruct s; cbn; lia).
      destruct s; cbn [cond_Zopp]; lia.
    + symmetry. apply Z.leb_le. change (emax - prec) with 971. lia.
Qed.

Lemma digits_exp_le (m e b : Z) :
  0 < m -> -1074 <= e -> -1074 <= b ->
  m * 2 ^ (e + 1074) < 2 ^ (b + 1074) -> Zdigits2 m + e <= b.
Proof.
  intros Hm He Hb HX.
  destruct (Zdigits2_bounds m Hm) as [Hd [Hlo _]].
  assert (0 < 2 ^ (e + 1074)) as HA by (apply pow2_pos; lia).
  assert (2 ^ (Zdigits2 m - 1 + (e + 1074)) < 2 ^ (b + 1074)) as H.
  { rewrite pow2_split by lia. apply (mul_le_lt _ m _); assumption. }
  apply pow2_lt_inv in H; lia.
Qed.

Lemma Pos_iter_xO (m d : positive) : Zpos (Pos.iter xO m d) = Zpos m * 2 ^ Zpos d.
Proof.
  induction d as [|d IH] using Pos.peano_ind.
  - cbn [Pos.iter]. rewrite Pos2Z.inj_xO. change (2 ^ 1) with 2. ring.
  - rewrite Pos.iter_succ, Pos2Z.inj_xO, IH, Pos2Z.inj_succ, Z.pow_succ_r by lia. ring.
Qed.

(** Aligning a mantissa to a smaller exponent keeps the value. *)
Lemma shl_align_value (m : positive) (e e' : Z) :
  -1074 <= e' ->
  let r := shl_align m e e' in
  Zpos (fst r) * 2 ^ (snd r + 1074) = Zpos m * 2 ^ (e + 1074) /\
  snd r = Z.min e e'.
Proof.
  intros He' r. subst r. unfold shl_align.
  destruct (e' - e) as [|d|d] eqn:E; cbn [fst snd].
  - split; [reflexivity|lia].
  - split; [reflexivity|lia].
  - rewrite Pos_iter_xO. split; [|lia].
    replace (e + 1074) with (Zpos d + (e' + 1074)) by lia.
    rewrite (pow2_split (Zpos d) (e' + 1074)) by lia. ring.
Qed.

Lemma binary_round_bound (s : bool) (mx : positive) (ex b : Z) :
  -1074 <= ex -> -1074 <= b <= 1000 ->
  Zpos mx * 2 ^ (ex + 1074) < 2 ^ (b + 1074) ->
  let f := binary_round prec emax s mx ex in
  tame f = true /\
  Z.abs (zval f - cond_Zopp s (Zpos mx * 2 ^ (ex + 1074)))
    <= 3 * 2 ^ (Z.max (b - 53) (-1074) + 1074).
Proof.
  intros Hex Hb HX f. subst f. unfold binary_round.
  pose proof (digits_exp_le (Zpos mx) ex b) as Hd. cbn [Zdigits2] in Hd.
  specialize (Hd ltac:(lia) Hex ltac:(lia) HX).
  rewrite fexp_eq.
  remember (Z.max (Zpos (digits2_pos mx) + ex - 53) (-1074)) as t eqn:Ht.
  destruct (shl_align_value mx ex t) as [Hv He]; [lia|].
  destruct (shl_align mx ex t) as [mz ez]. cbn [fst snd] in Hv, He.
  rewrite <- Hv. apply binary_round_aux_bound; lia.
Qed.

Lemma binary_normalize_bound (S ez b : Z) (sz : bool) :
  -1074 <= ez -> -1074 <= b <= 1000 ->
  Z.abs S * 2 ^ (ez + 1074) < 2 ^ (b + 1074) ->
  let f := binary_normalize prec emax S ez sz in
  tame f = true /\
  Z.abs (zval f - S * 2 ^ (ez + 1074)) <= 3 * 2 ^ (Z.max (b - 53) (-1074) + 1074).
Proof.
  intros Hez Hb HX f. subst f. unfold binary_normalize.
  assert (0 < 2 ^ (Z.max (b - 53) (-1074) + 1074)) as HB by (apply pow2_pos; lia).
  destruct S as [|p|p].
  - cbn [tame zval]. split; [reflexivity|]. rewrite Z.mul_0_l.
    change (Z.abs (0 - 0)) with 0. lia.
  - apply (binary_round_bound false p ez b); assumption.
  - destruct (binary_round_bound true p ez b) as [H1 H2]; try assumption.
    split; [exact H1|]. cbn [cond_Zopp] in H2.
    replace (Zneg p * 2 ^ (ez + 1074)) with (- (Zpos p * 2 ^ (ez + 1074))); [exact H2|].
    rewrite <- Pos2Z.opp_pos. ring.
Qed.

Lemma cond_Zopp_mul (s : bool) (a c : Z) : cond_Zopp s a * c = cond_Zopp s (a * c).
Proof. destruct s; cbn [cond_Zopp]; ring. Qed.

(** Adding a finite float: the result is the exact sum up to three units of
    the exponent the sum calls for. *)
Lemma SFadd_bound (x : spec_float) (sy : bool) (my : positive) (ey b : Z) :
  let y := S754_finite sy my ey in
  tame x = true -> -1074 <= ey -> -1074 <= b <= 1000 ->
  Z.abs (zval x + zval y) < 2 ^ (b + 1074) ->
  tame (SFadd prec emax x y) = true /\
  Z.abs (zval (SFadd prec emax x y) - (zval x + zval y))
    <= 3 * 2 ^ (Z.max (b - 53) (-1074) + 1074).
Proof.
  intros y Hx Hey Hb HX. subst y.
  assert (0 < 2 ^ (Z.max (b - 53) (-1074) + 1074)) as HB by (apply pow2_pos; lia).
  destruct x as [sx|sx| |sx mx ex]; try discriminate.
  - cbn [SFadd tame]. split; [apply Z.leb_le; exact Hey|].
    cbn [zval]. rewrite Z.add_0_l, Z.sub_diag. cbn [Z.abs]. lia.
  - cbn [tame] in Hx. apply Z.leb_le in Hx. cbn [SFadd].
    destruct (shl_align_value mx ex (Z.min ex ey)) as [Hvx Hex]; [lia|].
    destruct (shl_align_value my ey (Z.min ex ey)) as [Hvy Hey']; [lia|].
    destruct (shl_align mx ex (Z.min ex ey)) as [mx' ex'].
    destruct (shl_align my ey (Z.min ex ey)) as [my' ey'].
    cbn [fst snd] in *.
    replace ex' with (Z.min ex ey) in Hvx by lia.
    replace ey' with (Z.min ex ey) in Hvy by lia.
    remember (Z.min ex ey) as ez eqn:Hez.
    assert ((cond_Zopp sx (Zpos mx') + cond_Zopp sy (Zpos my')) * 2 ^ (ez + 1074)
            = zval (S754_finite sx mx ex) + zval (S754_finite sy my ey)) as HS.
    { cbn [zval]. rewrite Z.mul_add_distr_r, !cond_Zopp_mul, Hvx, Hvy. reflexivity. }
    assert (0 < 2 ^ (ez + 1074)) as HP by (apply pow2_pos; lia).
    rewrite <- HS. apply binary_normalize_bound; [lia|lia|].
    rewrite <- (Z.abs_eq (2 ^ (ez + 1074))) at 1 by lia.
    rewrite <- Z.abs_mul, HS. exact HX.
Qed.

Lemma canonical_bounds (m : positive) (e : Z) :
  canonical_mantissa prec emax m e = true ->
  -1074 <= e /\ Zpos m < 2 ^ 53 /\ (-1074 < e -> 2 ^ 52 <= Zpos m).
Proof.
  unfold canonical_mantissa. rewrite fexp_eq. intros H. apply Z.eqb_eq in H.
  pose proof (digits2_pos_bounds m) as [Hlo Hhi].
  remember (Zpos (digits2_pos m)) as d eqn:Hd.
  assert (0 < d) by lia.
  split; [lia|]. split.
  - assert (2 ^ d <= 2 ^ 53) by (apply pow2_le; lia). lia.
  - intros He. assert (d = 53) as -> by lia. exact Hlo.
Qed.

Lemma canonical_lt (m1 m2 : positive) (e1 e2 : Z) :
  canonical_mantissa prec emax m1 e1 = true ->
  canonical_mantissa prec emax m2 e2 = true ->
  e1 < e2 ->
  Zpos m1 * 2 ^ (e1 + 1074) < Zpos m2 * 2 ^ (e2 + 1074).
Proof.
  intros H1 H2 He.
  destruct (canonical_bounds m1 e1 H1) as (He1 & Hm1 & _).
  destruct (canonical_bounds m2 e2 H2) as (He2 & _ & Hm2).
  specialize (Hm2 ltac:(lia)).
  assert (0 < 2 ^ (e1 + 1074)) as HA by (apply pow2_pos; lia).
  assert (2 * 2 ^ (e1 + 1074) <= 2 ^ (e2 + 1074)) as HA2.
  { change 2 with (2 ^ 1) at 1. rewrite <- pow2_split by lia. apply pow2_le. lia. }
  change (2 ^ 53) with (2 * 2 ^ 52) in Hm1.
  remember (2 ^ 52) as c eqn:Hc. assert (0 < c) by (subst c; reflexivity).
  remember (2 ^ (e1 + 1074)) as A. remember (2 ^ (e2 + 1074)) as A2.
  apply Z.lt_le_trans with (2 * c * A); [nia|].
  apply Z.le_trans with (c * A2); nia.
Qed.

Lemma valid_canonical (s : bool) (m : positive) (e : Z) :
  valid_binary (S754_finite s m e) = true -> canonical_mantissa prec emax m e = true.
Proof.
  cbn [SpecFloat.valid_binary]. unfold bounded. intros H.
  apply andb_prop in H. tauto.
Qed.

Lemma zval_pos (m : positive) (e : Z) : -1074 <= e -> 0 < Zpos m * 2 ^ (e + 1074).
Proof. intros He. apply Z.mul_pos_pos; [lia|apply pow2_pos; lia]. Qed.

(** On the floats binary64 has, [SFcompare] is the order of the values. *)
Lemma SFcompare_zval (f1 f2 : spec_float) :
  valid_binary f1 = true -> valid_binary f2 = true ->
  tame f1 = true -> tame f2 = true ->
  SFcompare f1 f2 = Some (zval f1 ?= zval f2).
Proof.
  intros V1 V2 T1 T2.
  destruct f1 as [s1|s1| |s1 m1 e1]; try discriminate;
    destruct f2 as [s2|s2| |s2 m2 e2]; try discriminate; cbn [tame] in T1, T2.
  - reflexivity.
  - apply Z.leb_le in T2. pose proof (zval_pos m2 e2 T2) as P2.
    cbn [SFcompare zval]. f_equal. symmetry.
    destruct s2; cbn [cond_Zopp].
    + apply Z.compare_gt_iff. lia.
    + apply Z.compare_lt_iff. lia.
  - apply Z.leb_le in T1. pose proof (zval_pos m1 e1 T1) as P1.
    cbn [SFcompare zval]. f_equal. symmetry.
    destruct s1; cbn [cond_Zopp].
    + apply Z.compare_lt_iff. lia.
    + apply Z.compare_gt_iff. lia.
  - apply Z.leb_le in T1, T2.
    pose proof (zval_pos m1 e1 T1) as P1. pose proof (zval_pos m2 e2 T2) as P2.
    apply valid_canonical in V1, V2.
    assert ((Zpos m1 * 2 ^ (e1 + 1074) ?= Zpos m2 * 2 ^ (e2 + 1074)) =
            match e1 ?= e2 with
            | Eq => PosDef.Pos.compare_cont Eq m1 m2
            | Lt => Lt
            | Gt => Gt
            end) as Hc.
    { destruct (Z.compare_spec e1 e2) as [->|Hlt|Hgt].
      - change (PosDef.Pos.compare_cont Eq m1 m2) with (Zpos m1 ?= Zpos m2).
        symmetry. apply Zmult_compare_compat_r, Z.lt_gt, pow2_pos. lia.
      - apply Z.compare_lt_iff. apply canonical_lt; assumption.
      - apply Z.compare_gt_iff. apply canonical_lt; assumption. }
    cbn [SFcompare zval]. f_equal.
    destruct s1, s2; cbn [cond_Zopp].
    + rewrite Z.compare_opp, (Z.compare_antisym (Zpos m1 * _) (Zpos m2 * _)), Hc.
      destruct (e1 ?= e2); reflexivity.
    + symmetry. apply Z.compare_lt_iff. lia.
    + symmetry. apply Z.compare_gt_iff. lia.
    + rewrite <- Hc. reflexivity.
Qed.

Lemma ltb_fval (x y : float) :
  ftame x = true -> ftame y = true -> (x <? y)%float = (fval x <? fval y).
Proof.
  intros Tx Ty. rewrite FloatAxioms.ltb_spec. unfold SFltb, fval, Z.ltb.
  rewrite (SFcompare_zval _ _ (Prim2SF_valid x) (Prim2SF_valid y) Tx Ty).
  reflexivity.
Qed.

Lemma leb_fval (x y : float) :
  ftame x = true -> ftame y = true -> (x <=? y)%float = (fval x <=? fval y).
Proof.
  intros Tx Ty. rewrite FloatAxioms.leb_spec. unfold SFleb, fval, Z.leb.
  rewrite (SFcompare_zval _ _ (Prim2SF_valid x) (Prim2SF_valid y) Tx Ty).
  destruct (zval (Prim2SF x) ?= zval (Prim2SF y)); reflexivity.
Qed.

(** A float between two finite floats is finite. *)
Lemma between_tame (lo hi m : float) :
  ftame lo = true -> ftame hi = true ->
  (lo <=? m)%float = true -> (m <=? hi)%float = true ->
  ftame m = true.
Proof.
  unfold ftame. intros Tlo Thi. rewrite !FloatAxioms.leb_spec. unfold SFleb.
  pose proof (Prim2SF_valid m) as Vm.
  destruct (Prim2SF m) as [sm|sm| |sm mm em].
  - reflexivity.
  - destruct sm.
    + destruct (Prim2SF lo) as [?|?| |? ? ?]; try discriminate; cbn; discriminate.
    + intros _. destruct (Prim2SF hi) as [?|?| |? ? ?]; try discriminate; cbn; discriminate.
  - destruct (Prim2SF lo) as [?|?| |? ? ?]; cbn; discriminate.
  - intros _ _. cbn [tame]. apply Z.leb_le.
    apply valid_canonical in Vm. apply canonical_bounds in Vm. tauto.
Qed.

Lemma add_const_bound (m c : float) (s : bool) (mc : positive) (ec b : Z) :
  Prim2SF c = S754_finite s mc ec -> -1074 <= ec -> -1074 <= b <= 1000 ->
  ftame m = true ->
  Z.abs (fval m + fval c) < 2 ^ (b + 1074) ->
  ftame (m + c) = true /\
  Z.abs (fval (m + c) - (fval m + fval c)) <= 3 * 2 ^ (Z.max (b - 53) (-1074) + 1074).
Proof.
  unfold ftame, fval. intros Hc Hec Hb Tm HX.
  rewrite FloatAxioms.add_spec. unfold SF64add. rewrite Hc in *.
  apply SFadd_bound; assumption.
Qed.

Lemma add_const_in_range (m c : float) (s : bool) (mc : positive) (ec : Z) :
  Prim2SF c = S754_finite s mc ec -> -1074 <= ec ->
  ftame m = true ->
  - 2 ^ 1095 < fval (-0x1p20)%float + fval c ->
  fval 0x1p20%float + fval c < 2 ^ 1095 ->
  fval (-0x1p20)%float <= fval m <= fval 0x1p20%float ->
  ftame (m + c) = true /\
  Z.abs (fval (m + c) - (fval m + fval c)) <= 3 * 2 ^ 1042.
Proof.
  intros Hc Hec Tm Hlo Hhi Hm.
  apply (add_const_bound m c s mc ec 21 Hc Hec); [lia|exact Tm|].
  change (2 ^ (21 + 1074)) with (2 ^ 1095). lia.
Qed.

(** For a median between -1048576 and 1048576 the four sums round to
    floats in the order of the constants. *)
Theorem sums_ordered (m : float) :
  (-0x1p20 <=? m)%float = true -> (m <=? 0x1p20)%float = true ->
  (m + 0.5 <? m + 0.500001)%float = true /\
  (m + 0.500001 <=? m + 1.5)%float = true /\
  (m + 0.5 <? m + 1.5)%float = true /\
  (m + 1.5 <? m + 1.500001)%float = true.
Proof.
  intros Hlo Hhi.
  assert (ftame (-0x1p20)%float = true) as Tlo by reflexivity.
  assert (ftame 0x1p20%float = true) as Thi by reflexivity.
  pose proof (between_tame _ _ m Tlo Thi Hlo Hhi) as Tm.
  rewrite (leb_fval _ _ Tlo Tm) in Hlo. rewrite (leb_fval _ _ Tm Thi) in Hhi.
  apply Z.leb_le in Hlo, Hhi.
  assert (ftame (m + 0.5) = true /\
          Z.abs (fval (m + 0.5) - (fval m + fval 0.5%float)) <= 3 * 2 ^ 1042) as [T1 B1].
  { eapply add_const_in_range;
      [vm_compute; reflexivity|lia|exact Tm|reflexivity|reflexivity|lia]. }
  assert (ftame (m + 0.500001) = true /\
          Z.abs (fval (m + 0.500001) - (fval m + fval 0.500001%float)) <= 3 * 2 ^ 1042) as [T2 B2].
  { eapply add_const_in_range;
      [vm_compute; reflexivity|lia|exact Tm|reflexivity|reflexivity|lia]. }
  assert (ftame (m + 1.5) = true /\
          Z.abs (fval (m + 1.5) - (fval m + fval 1.5%float)) <= 3 * 2 ^ 1042) as [T3 B3].
  { eapply add_const_in_range;
      [vm_compute; reflexivity|lia|exact Tm|reflexivity|reflexivity|lia]. }
  assert (ftame (m + 1.500001) = true /\
          Z.abs (fval (m + 1.500001) - (fval m + fval 1.500001%float)) <= 3 * 2 ^ 1042) as [T4 B4].
  { eapply add_const_in_range;
      [vm_compute; reflexivity|lia|exact Tm|reflexivity|reflexivity|lia]. }
  assert (fval 0.5%float + 2 * (3 * 2 ^ 1042) < fval 0.500001%float) as G12 by reflexivity.
  assert (fval 0.500001%float + 2 * (3 * 2 ^ 1042) < fval 1.5%float) as G23 by reflexivity.
  assert (fval 1.5%float + 2 * (3 * 2 ^ 1042) < fval 1.500001%float) as G34 by reflexivity.
  rewrite (ltb_fval _ _ T1 T2), (leb_fval _ _ T2 T3), (ltb_fval _ _ T1 T3),
    (ltb_fval _ _ T3 T4).
  rewrite !Z.ltb_lt, Z.leb_le.
  remember (3 * 2 ^ 1042) as delta.
  remember (fval m) as M. clear HeqM Hlo Hhi Heqdelta.
  remember (fval 0.5%float) as a1. remember (fval 0.500001%float) as a2.
  remember (fval 1.5%float) as a3. remember (fval 1.500001%float) as a4.
  clear Heqa1 Heqa2 Heqa3 Heqa4.
  lia.
Qed.

End Rounding.

(** ** The risk classifier *)

Lemma risk_from_median_label (c m : option float) : risk_from_median c m ∈ labels.
Proof.
  unfold risk_from_median, labels.
  destruct c as [c|], m as [m|]; try (apply list_elem_of_In; simpl; tauto).
  destruct (c <=? m + 0.5)%float; [|destruct (c <=? m + 1.5)%float];
    apply list_elem_of_In; simpl; tauto.
Qed.

Example risk_one_foot_over : risk_from_median (Some 3%float) (Some 2%float) = "medium".
Proof. vm_compute. reflexivity. Qed.

Example risk_boundaries_at_2 :
  let m := 2%float in
  risk_from_median (Some (m + 0.5)%float) (Some m) = "low" /\
  risk_from_median (Some (m + 0.500001)%float) (Some m) = "medium" /\
  risk_from_median (Some (m + 1.5)%float) (Some m) = "medium" /\
  risk_from_median (Some (m + 1.500001)%float) (Some m) = "high".
Proof. vm_compute. auto. Qed.

(** C1 (as amended): the classifier returns one of the four labels for
    every pair of optional floats and [unknown] as soon as one input is
    absent.  At the lower boundary, [median + 0.5] is [low] for every median
    that is a number (not NaN).  For every median between -1048576 and
    1048576 (2^20), [median + 0.500001] and [median + 1.5] are [medium] and
    [median + 1.500001] is [high].  Beyond that range these three facts hold
    wherever the floating-point sums are still strictly ordered:
    [median + 0.5 < median + 0.500001 <= median + 1.5] for the first,
    [median + 0.5 < median + 1.5] for the second and, with it,
    [median + 1.5 < median + 1.500001] for the third. *)
Theorem risk_from_median_contract :
  (forall c m : option float, risk_from_median c m ∈ labels) /\
  (forall x : option float,
     risk_from_median x None = "unknown" /\ risk_from_median None x = "unknown") /\
  (forall m : float, is_nan m = false ->
     risk_from_median (Some (m + 0.5)%float) (Some m) = "low") /\
  (forall m : float,
     (-1048576 <=? m)%float = true -> (m <=? 1048576)%float = true ->
     risk_from_median (Some (m + 0.500001)%float) (Some m) = "medium" /\
     risk_from_median (Some (m + 1.5)%float) (Some m) = "medium" /\
     risk_from_median (Some (m + 1.500001)%float) (Some m) = "high") /\
  (forall m : float,
     (m + 0.5 <? m + 0.500001)%float = true ->
     (m + 0.500001 <=? m + 1.5)%float = true ->
     risk_from_median (Some (m + 0.500001)%float) (Some m) = "medium") /\
  (forall m : float,
     (m + 0.5 <? m + 1.5)%float = true ->
     risk_from_median (Some (m + 1.5)%float) (Some m) = "medium") /\
  (forall m : float,
     (m + 0.5 <? m + 1.5)%float = true ->
     (m + 1.5 <? m + 1.500001)%float = true ->
     risk_from_median (Some (m + 1.500001)%float) (Some m) = "high").
Proof.
  assert (forall m : float,
     (m + 0.5 <? m + 0.500001)%float = true ->
     (m + 0.500001 <=? m + 1.5)%float = true ->
     risk_from_median (Some (m + 0.500001)%float) (Some m) = "medium") as Me1.
  { intros m H1 H2. unfold risk_from_median.
    rewrite (ltb_not_leb _ _ H1), H2. reflexivity. }
  assert (forall m : float,
     (m + 0.5 <? m + 1.5)%float = true ->
     risk_from_median (Some (m + 1.5)%float) (Some m) = "medium") as Me2.
  { intros m H1. unfold risk_from_median.
    rewrite (ltb_not_leb _ _ H1), (leb_refl _ (ltb_not_nan_r _ _ H1)).
    reflexivity. }
  assert (forall m : float,
     (m + 0.5 <? m + 1.5)%float = true ->
     (m + 1.5 <? m + 1.500001)%float = true ->
     risk_from_median (Some (m + 1.500001)%float) (Some m) = "high") as Hi.
  { intros m H1 H2. unfold risk_from_median.
    rewrite (ltb_not_leb _ _ (ltb_trans _ _ _ H1 H2)), (ltb_not_leb _ _ H2).
    reflexivity. }
  split; [exact risk_from_median_label|].
  split; [intros [x|]; split; reflexivity|].
  split.
  { intros m Hm. unfold risk_from_median.
    rewrite leb_refl; [reflexivity|].
    eapply add_finite_not_nan; [|exact Hm]. vm_compute. reflexivity. }
  split; [|auto].
  intros m Hlo Hhi. destruct (sums_ordered m Hlo Hhi) as (H12 & H23 & H13 & H34).
  auto.
Qed.

Lemma risk_from_median_contract_witness :
  let m := 2%float in
  is_nan m = false /\
  (-1048576 <=? m)%float = true /\ (m <=? 1048576)%float = true /\
  risk_from_median (Some (m + 0.5)%float) (Some m) = "low" /\
  risk_from_median (Some (m + 0.500001)%float) (Some m) = "medium" /\
  risk_from_median (Some (m + 1.5)%float) (Some m) = "medium" /\
  risk_from_median (Some (m + 1.500001)%float) (Some m) = "high".
Proof.
  intros m.
  assert (is_nan m = false) as H0 by (vm_compute; reflexivity).
  assert ((-1048576 <=? m)%float = true) as H1 by (vm_compute; reflexivity).
  assert ((m <=? 1048576)%float = true) as H2 by (vm_compute; reflexivity).
  destruct risk_from_median_contract as (_ & _ & Lo & Range & _).
  destruct (Range m H1 H2) as (R1 & R2 & R3).
  repeat split; auto.
Defined.

(** At a median of 1e16 the spacing of binary64 is 2, so adding 0.500001
    changes nothing and the reading is classified [low]. *)
Lemma risk_boundary_lost_at_1e16 :
  risk_from_median (Some (1e16 + 0.500001)%float) (Some 1e16%float) <> "medium".
Proof. vm_compute. discriminate. Qed.

Example risk_boundary_lost_values :
  risk_from_median (Some (1e16 + 0.500001)%float) (Some 1e16%float) = "low" /\
  risk_from_median (Some (1e16 + 1.5)%float) (Some 1e16%float) = "medium" /\
  risk_from_median (Some (nan + 0.5)%float) (Some nan) = "high".
Proof. vm_compute. auto. Qed.

(** ** The fetchers *)

Lemma for_each_app {A S : Type} (body : A -> S -> S * result unit)
    (l1 l2 : list A) (s : S) :
  for_each body (l1 ++ l2) s =
  match for_each body l1 s with
  | (s', Ok _) => for_each body l2 s'
  | (s', Raise e) => (s', Raise e)
  end.
Proof.
  revert s. induction l1 as [|x l1 IH]; intros s; simpl; [reflexivity|].
  destruct (body x s) as [s' [u|e]]; [apply IH|reflexivity].
Qed.

Lemma omap_reading_cons (e : json) (rest : list json) :
  omap reading_of (e :: rest) =
  match reading_of e with
  | Some r => r :: omap reading_of rest
  | None => omap reading_of rest
  end.
Proof. reflexivity. Qed.

Lemma reading_of_ok (e : json) (r : option reading) :
  daily_entry e = Ok r -> reading_of e = r.
Proof. unfold reading_of. intros ->. reflexivity. Qed.

Lemma scan_entries (entries : list json) (history : list reading) :
  (for_each entry_body entries history).1 =
  history ++ omap reading_of (readable_prefix entries).
Proof.
  revert history. induction entries as [|e rest IH]; intros history.
  - simpl. rewrite app_nil_r. reflexivity.
  - cbn [for_each readable_prefix]. unfold entry_body at 1, readable.
    destruct (daily_entry e) as [[r|]|x] eqn:E; cbn [is_ok].
    + rewrite IH, omap_reading_cons, (reading_of_ok _ _ E), <- app_assoc.
      reflexivity.
    + rewrite IH, omap_reading_cons, (reading_of_ok _ _ E). reflexivity.
    + simpl. rewrite app_nil_r. reflexivity.
Qed.

Lemma mapM_result_cons {A B : Type} (f : A -> result B) (x : A) (l : list A)
    (ys : list B) :
  mapM f (x :: l) = Ok ys ->
  exists y k, f x = Ok y /\ mapM f l = Ok k /\ ys = y :: k.
Proof.
  cbn [mapM]. destruct (f x) as [y|e]; [|discriminate].
  destruct (mapM f l) as [k|e]; [|discriminate].
  intros [= <-]. eauto.
Qed.

Lemma scan_blocks (blocks : list json) (ess : list (list json)) (history : list reading) :
  mapM block_entries blocks = Ok ess ->
  for_each block_body blocks history = for_each entry_body (concat ess) history.
Proof.
  revert ess history. induction blocks as [|vb rest IH]; intros ess history H.
  - injection H as <-. reflexivity.
  - apply mapM_result_cons in H as (es & k & Hes & Hk & ->).
    cbn [for_each concat]. rewrite for_each_app. unfold block_body. rewrite Hes.
    destruct (for_each entry_body es history) as [h [u|x]]; [|reflexivity].
    apply IH, Hk.
Qed.

Lemma series_body_entries (s : json) (es : list json) (history : list reading) :
  series_entries s = Ok es ->
  series_body s history = for_each entry_body es history.
Proof.
  unfold series_entries, series_body.
  destruct (daily_code s) as [code|x]; [|discriminate]. cbn [mbind result_bind].
  destruct (py_eq_str code "00065"); cbn [negb].
  - destruct (series_blocks s) as [blocks|x]; [|discriminate]. cbn [mbind result_bind].
    destruct (mapM block_entries blocks) as [bes|x] eqn:B; [|discriminate].
    intros [= <-]. apply scan_blocks, B.
  - intros [= <-]. reflexivity.
Qed.

Lemma scan_series (series : list json) (ess : list (list json)) (history : list reading) :
  mapM series_entries series = Ok ess ->
  for_each series_body series history = for_each entry_body (concat ess) history.
Proof.
  revert ess history. induction series as [|s rest IH]; intros ess history H.
  - injection H as <-. reflexivity.
  - apply mapM_result_cons in H as (es & k & Hes & Hk & ->).
    cbn [for_each concat]. rewrite for_each_app, (series_body_entries _ _ _ Hes).
    destruct (for_each entry_body es history) as [h [u|x]]; [|reflexivity].
    apply IH, Hk.
Qed.

Lemma daily_scan_matching (j : json) (entries : list json) :
  matching_entries j = Ok entries ->
  (daily_scan j).1 = omap reading_of (readable_prefix entries).
Proof.
  unfold matching_entries, daily_scan.
  destruct (time_series j) as [series|x]; simpl; [|discriminate].
  destruct (mapM series_entries series) as [ess|x] eqn:E; simpl; [|discriminate].
  intros [= <-]. rewrite (scan_series _ _ _ E), scan_entries. reflexivity.
Qed.

Lemma daily_entry_value (e : json) (r : option reading) :
  daily_entry e = Ok r -> (is_Some r <-> has_value e = true).
Proof.
  unfold daily_entry, has_value, entry_value.
  destruct e as [| | | | | |fields]; simpl; try discriminate.
  destruct (py_split_T_first _) as [d|x]; simpl; [|discriminate].
  destruct (not_none_or_empty _); simpl.
  - destruct (py_float _); simpl; [|discriminate].
    intros [= <-]. split; eauto.
  - intros [= <-]. split; [intros [? [=]]|discriminate].
Qed.

Lemma readable_prefix_readable (entries : list json) :
  Forall (fun e => readable e = true) (readable_prefix entries).
Proof.
  induction entries as [|e rest IH]; simpl; [constructor|].
  destruct (readable e) eqn:E; constructor; assumption.
Qed.

Lemma readable_prefix_all (entries : list json) :
  Forall (fun e => readable e = true) entries -> readable_prefix entries = entries.
Proof.
  induction 1 as [|e rest He _ IH]; simpl; [reflexivity|].
  rewrite He, IH. reflexivity.
Qed.

Lemma retained_readings (entries : list json) :
  Forall (fun e => readable e = true) entries ->
  Forall2 (fun e r => daily_entry e = Ok (Some r))
          (filter (fun e => has_value e = true) entries)
          (omap reading_of entries).
Proof.
  induction 1 as [|e rest He _ IH]; [constructor|].
  unfold readable in He. rewrite omap_reading_cons.
  destruct (daily_entry e) as [r|x] eqn:E; [|discriminate].
  rewrite (reading_of_ok _ _ E).
  pose proof (daily_entry_value e r E) as Hv.
  rewrite filter_cons. destruct r as [r|].
  - rewrite decide_True by (apply Hv; eauto). constructor; assumption.
  - rewrite decide_False; [assumption|].
    intros Hc. apply Hv in Hc. destruct Hc as [? [=]].
Qed.

Example fetch_30d_daily_sample :
  fetch_30d_daily gauged "01103500" 30 =
  Ok [ {| date := "2024-05-01"; value := 3.21 |};
       {| date := "2024-05-04"; value := 3.4 |} ].
Proof. vm_compute. reflexivity. Qed.

Example fetch_current_gage_sample :
  fetch_current_gage gauged "01103500" =
  Ok (Some 3.4%float, JStr "2024-05-04T00:00:00.000").
Proof. vm_compute. reflexivity. Qed.

(** C6 (as amended): for a daily-values response whose series and blocks
    can be walked, [fetch_30d_daily] returns, in order, one reading for each
    entry of the series tagged 00065 that has a value (neither null nor
    empty) and stands before the first entry the loop cannot read (an entry
    that is not an object, a [dateTime] that is not a string, a value that
    [float] rejects).  When every entry can be read, the entries without a
    value are the only ones left out. *)
Theorem fetch_30d_daily_retains (net : upstream) (site : string) (days st : Z)
    (j : json) (entries : list json) :
  dv_get net site days = Response st (Some j) ->
  raise_for_status st = Ok tt ->
  matching_entries j = Ok entries ->
  exists history,
    fetch_30d_daily net site days = Ok history /\
    Forall2 (fun e r => daily_entry e = Ok (Some r))
      (filter (fun e => has_value e = true) (readable_prefix entries)) history /\
    (Forall (fun e => readable e = true) entries ->
     Forall2 (fun e r => daily_entry e = Ok (Some r))
       (filter (fun e => has_value e = true) entries) history).
Proof.
  intros Hnet Hst Hj. exists (omap reading_of (readable_prefix entries)).
  split; [|split].
  - unfold fetch_30d_daily, response_json. rewrite Hnet, Hst. cbn [mbind result_bind].
    rewrite (daily_scan_matching _ _ Hj). reflexivity.
  - apply retained_readings, readable_prefix_readable.
  - intros Hall. rewrite (readable_prefix_all _ Hall).
    apply retained_readings, Hall.
Qed.

Lemma fetch_30d_daily_retains_witness :
  dv_get gauged "01103500" 30 = Response 200 (Some dv_sample) /\
  raise_for_status 200 = Ok tt /\
  matching_entries dv_sample = Ok dv_sample_entries /\
  exists history,
    fetch_30d_daily gauged "01103500" 30 = Ok history /\
    Forall2 (fun e r => daily_entry e = Ok (Some r))
      (filter (fun e => has_value e = true) (readable_prefix dv_sample_entries))
      history /\
    (Forall (fun e => readable e = true) dv_sample_entries ->
     Forall2 (fun e r => daily_entry e = Ok (Some r))
       (filter (fun e => has_value e = true) dv_sample_entries) history).
Proof.
  split; [reflexivity|]. split; [reflexivity|]. split; [reflexivity|].
  apply (fetch_30d_daily_retains gauged "01103500" 30 200 dv_sample dv_sample_entries);
    reflexivity.
Defined.

(** The third entry of [dv_ice] has a value, and no reading of it is
    returned: the second entry stopped the loop. *)
Lemma fetch_30d_daily_drops_after_unreadable :
  matching_entries dv_ice = Ok dv_ice_entries /\
  Forall (fun e => has_value e = true) dv_ice_entries /\
  fetch_30d_daily (answering (Response 200 (Some dv_ice))) "01103500" 30 =
    Ok [ {| date := "2024-01-10"; value := 2.9 |} ].
Proof.
  split; [reflexivity|]. split.
  - repeat constructor.
  - vm_compute. reflexivity.
Qed.

Lemma current_loop_other_codes (gt : option float * json) (series : list json) :
  Forall other_code_current series -> current_loop gt series = Ok gt.
Proof.
  induction 1 as [|s rest (c & Hc & Hne) _ IH]; [reflexivity|].
  cbn [current_loop]. unfold current_step. rewrite Hc. cbn [mbind result_bind].
  rewrite Hne. exact IH.
Qed.









(** ** [statistics.median] *)

Lemma leb_total (a b : float) :
  number a -> number b -> (a <? b)%float = false -> (b <=? a)%float = true.
Proof.
  unfold number. rewrite !is_nan_Prim2SF, FloatAxioms.ltb_spec, FloatAxioms.leb_spec.
  intros Ha Hb. apply SFcompare_total.
  - destruct (Prim2SF a); congruence.
  - destruct (Prim2SF b); congruence.
Qed.

Lemma ltb_leb_trans (a b c : float) :
  (a <? b)%float = true -> (b <=? c)%float = true -> (a <=? c)%float = true.
Proof. rewrite FloatAxioms.ltb_spec, !FloatAxioms.leb_spec. apply SFltb_leb_trans. Qed.

Lemma ltb_leb (a b : float) : (a <? b)%float = true -> (a <=? b)%float = true.
Proof.
  rewrite FloatAxioms.ltb_spec, FloatAxioms.leb_spec. unfold SFltb, SFleb.
  destruct (SFcompare _ _) as [[]|]; congruence.
Qed.

Lemma leb_not_ltb (a b : float) : (a <=? b)%float = true -> (b <? a)%float = false.
Proof.
  intros H. destruct (b <? a)%float eqn:E; [|reflexivity].
  rewrite (ltb_not_leb _ _ E) in H. discriminate.
Qed.

Lemma insort_perm (x : float) (l : list float) : insort x l ≡ₚ x :: l.
Proof.
  induction l as [|y rest IH]; simpl; [reflexivity|].
  destruct (x <? y)%float; [reflexivity|].
  rewrite IH. apply Permutation_swap.
Qed.

Lemma foldl_insort_perm (l acc : list float) :
  foldl (fun a x => insort x a) acc l ≡ₚ acc ++ l.
Proof.
  revert acc. induction l as [|x rest IH]; intros acc; simpl.
  - rewrite app_nil_r. reflexivity.
  - rewrite IH, insort_perm. apply Permutation_middle.
Qed.

Lemma sorted_perm (l : list float) : sorted l ≡ₚ l.
Proof. apply (foldl_insort_perm l []). Qed.

Lemma insort_ascending (x : float) (l : list float) :
  number x -> Forall number l -> ascending l -> ascending (insort x l).
Proof.
  intros Hx Hl Hs. induction Hs as [|y rest Hrest IH Hy]; simpl.
  - repeat constructor.
  - apply Forall_cons in Hl as [Hny Hl].
    destruct (x <? y)%float eqn:E.
    + constructor; [constructor; assumption|].
      constructor; [apply ltb_leb, E|].
      eapply Forall_impl; [exact Hy|]. intros z Hz. simpl in Hz.
      eapply ltb_leb_trans; eassumption.
    + constructor; [apply IH, Hl|].
      rewrite insort_perm. constructor; [|exact Hy].
      apply leb_total; assumption.
Qed.

Lemma foldl_insort_ascending (l acc : list float) :
  Forall number l -> Forall number acc -> ascending acc ->
  ascending (foldl (fun a x => insort x a) acc l).
Proof.
  revert acc. induction l as [|x rest IH]; intros acc Hl Hacc Hs; simpl; [exact Hs|].
  apply Forall_cons in Hl as [Hx Hl].
  apply IH; [exact Hl| |apply insort_ascending; assumption].
  rewrite insort_perm. constructor; assumption.
Qed.

Lemma sorted_ascending (l : list float) : Forall number l -> ascending (sorted l).
Proof. intros H. apply foldl_insort_ascending; [exact H|constructor|constructor]. Qed.

Lemma count_app (p : float -> bool) (l1 l2 : list float) :
  count p (l1 ++ l2) = count p l1 + count p l2.
Proof. induction l1 as [|y rest IH]; simpl; [reflexivity|]. rewrite IH. lia. Qed.

Lemma count_perm (p : float -> bool) (l1 l2 : list float) :
  l1 ≡ₚ l2 -> count p l1 = count p l2.
Proof. induction 1; simpl; lia. Qed.

Lemma count_all (p : float -> bool) (l : list float) :
  Forall (fun y => p y = true) l -> count p l = length l.
Proof. induction 1 as [|y rest Hy _ IH]; simpl; [reflexivity|]. rewrite Hy, IH. reflexivity. Qed.

Lemma count_none (p : float -> bool) (l : list float) :
  Forall (fun y => p y = false) l -> count p l = 0.
Proof. induction 1 as [|y rest Hy _ IH]; simpl; [reflexivity|]. rewrite Hy, IH. reflexivity. Qed.

Lemma count_le_length (p : float -> bool) (l : list float) : count p l <= length l.
Proof. induction l as [|y rest IH]; simpl; [lia|]. destruct (p y); lia. Qed.

Lemma ascending_app_inv (l1 l2 : list float) (x : float) :
  ascending (l1 ++ x :: l2) ->
  Forall (fun y => (y <=? x)%float = true) l1 /\
  Forall (fun y => (x <=? y)%float = true) l2.
Proof.
  induction l1 as [|y rest IH]; simpl; intros H.
  - apply StronglySorted_inv in H as [_ H]. split; [constructor|exact H].
  - apply StronglySorted_inv in H as [Hs Hy].
    destruct (IH Hs) as [H1 H2]. split; [|exact H2].
    constructor; [|exact H1].
    rewrite Forall_app, Forall_cons in Hy. tauto.
Qed.

(** In an ascending list of numbers the item at index [i] is an
    [i+1]-th smallest. *)
Lemma ascending_kth (l : list float) (i : nat) (x : float) :
  Forall number l -> ascending l -> l !! i = Some x ->
  kth_smallest (S i) x l.
Proof.
  intros Hn Hs Hi.
  destruct (list_elem_of_split_length _ _ _ Hi) as (l1 & l2 & -> & Hlen).
  destruct (ascending_app_inv _ _ _ Hs) as [H1 H2].
  assert (number x) as Hx.
  { rewrite Forall_app, Forall_cons in Hn. tauto. }
  split; [apply elem_of_app; right; left|].
  rewrite !count_app. simpl.
  rewrite (count_none _ l2), (count_all _ l1 H1).
  - rewrite (leb_refl _ Hx).
    assert ((x <? x)%float = false) as -> by (apply leb_not_ltb, leb_refl, Hx).
    pose proof (count_le_length (fun y => y <? x)%float l1). lia.
  - eapply Forall_impl; [exact H2|]. intros y Hy. apply leb_not_ltb, Hy.
Qed.

Lemma kth_smallest_perm (k : nat) (x : float) (l1 l2 : list float) :
  l1 ≡ₚ l2 -> kth_smallest k x l1 -> kth_smallest k x l2.
Proof.
  intros Hp [Hin Hc]. split; [rewrite <- Hp; exact Hin|].
  rewrite <- !(count_perm _ _ _ Hp). exact Hc.
Qed.

Lemma statistics_median_total (data : list float) :
  data <> [] -> is_ok (statistics_median data) = true.
Proof.
  intros Hne. unfold statistics_median.
  assert (length (sorted data) = length data) as Hlen by (rewrite sorted_perm; reflexivity).
  assert (length data <> 0) as Hn by (destruct data; simpl; congruence).
  set (l := sorted data) in *. set (n := length l) in *.
  destruct (n =? 0)%nat eqn:E0; [apply Nat.eqb_eq in E0; lia|].
  destruct (n mod 2 =? 1)%nat eqn:E1.
  - destruct (lookup_lt_is_Some_2 l (n / 2)) as [x ->]; [|reflexivity].
    apply Nat.div_lt; lia.
  - assert (n mod 2 = 0) as Hev.
    { apply Nat.eqb_neq in E1. pose proof (Nat.mod_upper_bound n 2). lia. }
    assert (2 <= n).
    { destruct n as [|[|n']]; [lia|discriminate|lia]. }
    assert (n / 2 < n) by (apply Nat.div_lt; lia).
    destruct (lookup_lt_is_Some_2 l (n / 2 - 1)) as [a ->]; [fold n; lia|].
    destruct (lookup_lt_is_Some_2 l (n / 2)) as [b ->]; [fold n; lia|].
    reflexivity.
Qed.

(** [statistics.median] computes the statistical median of data that holds
    numbers only. *)
Lemma statistics_median_spec (data : list float) (m : float) :
  Forall number data ->
  statistics_median data = Ok m -> statistical_median m data.
Proof.
  intros Hnum. unfold statistics_median, statistical_median.
  assert (length (sorted data) = length data) as Hlen by (rewrite sorted_perm; reflexivity).
  assert (Forall number (sorted data)) as Hnum' by (rewrite sorted_perm; exact Hnum).
  pose proof (sorted_ascending data Hnum) as Hasc.
  pose proof (sorted_perm data) as Hperm.
  rewrite <- Hlen.
  set (l := sorted data) in *. set (n := length l) in *.
  destruct (n =? 0)%nat eqn:E0; [discriminate|].
  destruct (n mod 2 =? 1)%nat eqn:E1.
  - destruct (l !! (n / 2)) as [x|] eqn:Hx; [|discriminate].
    intros [= <-]. apply (kth_smallest_perm _ _ l); [exact Hperm|].
    rewrite Nat.add_1_r. apply ascending_kth; assumption.
  - destruct (l !! (n / 2 - 1)) as [a|] eqn:Ha; [|discriminate].
    destruct (l !! (n / 2)) as [b|] eqn:Hb; [|discriminate].
    intros [= <-]. exists a, b.
    assert (n / 2 <> 0) as Hpos.
    { apply Nat.eqb_neq in E0, E1. pose proof (Nat.mod_upper_bound n 2).
      pose proof (Nat.div_mod_eq n 2). lia. }
    split; [|split; [|reflexivity]].
    + apply (kth_smallest_perm _ _ l); [exact Hperm|].
      replace (n / 2) with (S (n / 2 - 1)) at 1 by lia.
      apply ascending_kth; assumption.
    + apply (kth_smallest_perm _ _ l); [exact Hperm|].
      rewrite Nat.add_1_r. apply ascending_kth; assumption.
Qed.

Example statistics_median_odd :
  statistics_median [3.4; 2.9; 3.1]%float = Ok 3.1%float.
Proof. vm_compute. reflexivity. Qed.

Example statistics_median_even :
  statistics_median [3.5; 2.5; 3; 1]%float = Ok 2.75%float.
Proof. vm_compute. reflexivity. Qed.

(** ** [api_stations] *)






Lemma station_report_median (net : upstream) (s : station) :
  match history_30d (station_report net s) with
  | [] => median_30d (station_report net s) = None
  | h => exists m, median_30d (station_report net s) = Some m /\
                   statistics_median (value <$> h) = Ok m
  end.
Proof.
  unfold station_report.
  destruct (fetch_current_gage _ _) as [[g t]|e];
    destruct (fetch_30d_daily _ _ _) as [[|r h]|e']; cbn [mbind result_bind];
    try reflexivity;
    match goal with |- context [statistics_median ?d] =>
      destruct (statistics_median d) as [m|x] eqn:E end;
    cbn [fmap result_fmap mbind result_bind history_30d median_30d];
    try reflexivity; exists m; (split; [reflexivity|exact E]).
Qed.



Example median_of_sample :
  median_30d (station_report gauged dover) = Some 3.3049999999999997%float /\
  risk (station_report gauged dover) = "low".
Proof. vm_compute. auto. Qed.

(** ** The subscription registry *)

Lemma api_subscribe_dict (fields : list (string * json)) (subs : registry) :
  api_subscribe (JDict fields) subs =
  let vid := field fields "venue_id" in
  let p := request_person fields in
  if negb (truthy vid) || negb (truthy (email p)) then (subs, Ok required_fields)
  else
    match registry_key vid with
    | Raise e => (subs, Raise e)
    | Ok key =>
        match key ≫= fun k => (fun l => (k, l)) <$> subs !! k with
        | None => (subs, Ok unknown_venue)
        | Some (k, l) => (<[k := l ++ [p]]> subs, Ok (subscribed vid))
        end
    end.
Proof. unfold api_subscribe. destruct fields; reflexivity. Qed.

Lemma api_subscribe_not_dict (request_json : json) (subs : registry) :
  truthy request_json = true ->
  (forall fields, request_json <> JDict fields) ->
  api_subscribe request_json subs = (subs, Raise AttributeError).
Proof.
  intros Ht Hd. unfold api_subscribe. rewrite Ht.
  destruct request_json; try reflexivity. exfalso. eapply Hd. reflexivity.
Qed.

Lemma api_subscribe_falsy (request_json : json) (subs : registry) :
  truthy request_json = false ->
  api_subscribe request_json subs = (subs, Ok required_fields).
Proof. intros Ht. unfold api_subscribe. rewrite Ht. reflexivity. Qed.

(** What a call does to the registry: nothing, or one more person at the
    end of a list that was there. *)
Lemma api_subscribe_effect (request_json : json) (subs : registry) :
  (api_subscribe request_json subs).1 = subs \/
  exists k l p, subs !! k = Some l /\
                (api_subscribe request_json subs).1 = <[k := l ++ [p]]> subs /\
                exists vid, (api_subscribe request_json subs).2 = Ok (subscribed vid).
Proof.
  unfold api_subscribe.
  destruct (_ ≫= _) as [[vid p]|e]; [|left; reflexivity].
  destruct (_ || _); [left; reflexivity|].
  destruct (registry_key vid) as [[k|]|e]; try (left; reflexivity).
  cbn [mbind option_bind]. destruct (subs !! k) as [l|] eqn:E; [|left; reflexivity].
  right. exists k, l, p. cbn [fmap option_fmap option_map fst snd]. eauto.
Qed.

Lemma api_subscribe_dom (request_json : json) (subs : registry) :
  dom (api_subscribe request_json subs).1 = dom subs.
Proof.
  destruct (api_subscribe_effect request_json subs) as [->|(k & l & p & Hk & -> & _)];
    [reflexivity|].
  rewrite dom_insert_L. apply elem_of_dom_2 in Hk. set_solver.
Qed.

Lemma run_op_dom (subs : registry) (op : operation) : dom (run_op subs op) = dom subs.
Proof. destruct op; try reflexivity. apply api_subscribe_dom. Qed.

Lemma foldl_run_op_dom (ops : list operation) (subs : registry) :
  dom (foldl run_op subs ops) = dom subs.
Proof.
  revert subs. induction ops as [|op rest IH]; intros subs; [reflexivity|].
  simpl. rewrite IH. apply run_op_dom.
Qed.

Lemma initial_registry_dom (venues : list venue) (d : registry) :
  dom (foldl (fun d v => <[id v := []]> d) d venues) =
  dom d ∪ list_to_set (id <$> venues).
Proof.
  revert d. induction venues as [|v rest IH]; intros d; simpl.
  - set_solver.
  - rewrite IH, dom_insert_L. set_solver.
Qed.

Lemma initial_registry_empty (venues : list venue) (d : registry) :
  (forall k l, d !! k = Some l -> l = []) ->
  forall k l, foldl (fun d v => <[id v := []]> d) d venues !! k = Some l -> l = [].
Proof.
  revert d. induction venues as [|v rest IH]; intros d Hd; simpl; [exact Hd|].
  apply IH. intros k l. rewrite lookup_insert.
  case_decide; [congruence|apply Hd].
Qed.

Lemma run_ops_dom (ops : list operation) :
  dom (run_ops ops) = list_to_set venue_ids.
Proof.
  unfold run_ops. rewrite foldl_run_op_dom. unfold SUBSCRIPTIONS.
  rewrite initial_registry_dom. unfold venue_ids. set_solver.
Qed.

Lemma run_ops_lookup (ops : list operation) (k : string) :
  k ∈ venue_ids -> is_Some (run_ops ops !! k).
Proof.
  intros Hk. rewrite <- elem_of_dom, run_ops_dom, elem_of_list_to_set. exact Hk.
Qed.

Lemma run_ops_lookup_None (ops : list operation) (k : string) :
  k ∉ venue_ids -> run_ops ops !! k = None.
Proof.
  intros Hk. apply not_elem_of_dom. rewrite run_ops_dom, elem_of_list_to_set. exact Hk.
Qed.

(** C9: the registry starts with exactly the configured venue identifiers
    as keys, each with an empty list, and after any sequence of operations
    (subscriptions included, whatever their outcome) its set of keys is
    still the set of configured venue identifiers. *)
Theorem registry_keys_invariant :
  dom SUBSCRIPTIONS = list_to_set venue_ids /\
  Forall (fun k => SUBSCRIPTIONS !! k = Some []) venue_ids /\
  (forall ops : list operation, dom (run_ops ops) = list_to_set venue_ids) /\
  (forall (ops : list operation) (k : string),
     is_Some (run_ops ops !! k) <-> k ∈ venue_ids).
Proof.
  split; [apply (run_ops_dom [])|].
  split.
  { apply Forall_forall. intros k Hk.
    destruct (run_ops_lookup [] k Hk) as [l Hl].
    change (run_ops []) with SUBSCRIPTIONS in Hl. rewrite Hl. f_equal.
    revert Hl. apply initial_registry_empty.
    intros k' l'. rewrite lookup_empty. discriminate. }
  split; [apply run_ops_dom|].
  intros ops k. rewrite <- elem_of_dom, run_ops_dom, elem_of_list_to_set. reflexivity.
Qed.

Lemma venue_id_truthy (k : string) : k ∈ venue_ids -> truthy (JStr k) = true.
Proof.
  unfold venue_ids. cbn [fmap list_fmap VENUES id].
  rewrite !elem_of_cons, elem_of_nil. intros [->|[->|[]]]; reflexivity.
Qed.




(** C10: a call that does not succeed leaves the registry as it was: when
    an exception escapes the handler, and when the reply is not the success
    reply (it is then the client error or the not-found error), no list of
    any venue has changed. *)
Theorem api_subscribe_failure_keeps_registry (request_json : json) (subs : registry) :
  (forall e, (api_subscribe request_json subs).2 = Raise e ->
     (api_subscribe request_json subs).1 = subs) /\
  (forall r, (api_subscribe request_json subs).2 = Ok r -> status r <> 200%Z ->
     (r = required_fields \/ r = unknown_venue) /\
     (api_subscribe request_json subs).1 = subs).
Proof.
  split.
  - intros e He.
    destruct (api_subscribe_effect request_json subs) as [H|(k & l & p & _ & _ & vid & Hr)];
      [exact H|congruence].
  - intros r Hr Hst. split.
    + revert Hr Hst. unfold api_subscribe.
      destruct (_ ≫= _) as [[vid p]|e]; [|discriminate].
      destruct (_ || _); [intros [= <-]; auto|].
      destruct (registry_key vid) as [key|e]; [|discriminate].
      destruct (key ≫= _) as [[k l]|]; intros [= <-]; auto.
      intros H. exfalso. apply H. reflexivity.
    + destruct (api_subscribe_effect request_json subs)
        as [H|(k & l & p & _ & _ & vid & Hr')]; [exact H|].
      rewrite Hr' in Hr. injection Hr as <-. exfalso. apply Hst. reflexivity.
Qed.

Lemma api_subscribe_failure_keeps_registry_witness :
  (api_subscribe (JList [JInt 1]) SUBSCRIPTIONS).2 = Raise AttributeError /\
  (api_subscribe (JList [JInt 1]) SUBSCRIPTIONS).1 = SUBSCRIPTIONS /\
  (api_subscribe (JDict elsewhere) SUBSCRIPTIONS).2 = Ok unknown_venue /\
  (api_subscribe (JDict elsewhere) SUBSCRIPTIONS).1 = SUBSCRIPTIONS.
Proof.
  split; [reflexivity|]. split.
  - apply (api_subscribe_failure_keeps_registry (JList [JInt 1]) SUBSCRIPTIONS)
      with (e := AttributeError). reflexivity.
  - split; [reflexivity|].
    apply (api_subscribe_failure_keeps_registry (JDict elsewhere) SUBSCRIPTIONS)
      with (r := unknown_venue); [reflexivity|discriminate].
Defined.

Example subscribe_twice :
  (api_subscribe (JDict ann) (api_subscribe (JDict ann) SUBSCRIPTIONS).1).1 !! "cbi"
  = Some [request_person ann; request_person ann].
Proof. vm_compute. reflexivity. Qed.

(** ** The notifier *)

Lemma SFleb_trans (a b c : spec_float) :
  SFleb a b = true -> SFleb b c = true -> SFleb a c = true.
Proof. unfold SFleb. SFcompare_cases a b c. Qed.

Lemma leb_trans (a b c : float) :
  (a <=? b)%float = true -> (b <=? c)%float = true -> (a <=? c)%float = true.
Proof. rewrite !FloatAxioms.leb_spec. apply SFleb_trans. Qed.

Section NotifierProperties.
Context (M : libm).









End NotifierProperties.

Example dist_km_at_origin : dist_km libm_exact_points 0 0 0 0 = Ok 0%float.
Proof. vm_compute. reflexivity. Qed.





Lemma elevated_spec (r : string) : elevated r = true <-> r = "medium" \/ r = "high".
Proof.
  unfold elevated. rewrite orb_true_iff, !String.eqb_eq. reflexivity.
Qed.

Section CycleProperties.
Context (M : libm) (stations : list station_row) (subs : registry).

Lemma notify_venue_spec (v : venue) (n : notification) :
  notify_venue M stations subs v = Ok (Some n) <->
  exists nearest,
    nearest_station M v stations = Ok nearest /\
    (risk nearest = "medium" \/ risk nearest = "high") /\
    default [] (subs !! id v) <> [] /\
    n = {| n_venue := vname v; n_risk := risk nearest;
           n_count := length (default [] (subs !! id v)) |}.
Proof.
  unfold notify_venue.
  destruct (nearest_station M v stations) as [nearest|e]; cbn [mbind result_bind].
  - pose proof (elevated_spec (risk nearest)) as He.
    destruct (elevated (risk nearest)).
    + destruct (default [] (subs !! id v)) as [|p l] eqn:E.
      * split; [discriminate|]. intros (n' & _ & _ & H & _). congruence.
      * split.
        -- intros [= <-]. exists nearest. repeat split; try tauto. discriminate.
        -- intros (n' & [= <-] & _ & _ & ->). reflexivity.
    + split; [discriminate|]. intros (n' & [= <-] & H & _).
      apply He in H. discriminate.
  - split; [discriminate|]. intros (n' & H & _). discriminate.
Qed.

Lemma notify_venue_ok (v : venue) :
  is_ok (nearest_station M v stations) = true ->
  is_ok (notify_venue M stations subs v) = true.
Proof.
  unfold notify_venue.
  destruct (nearest_station M v stations) as [nearest|e]; [|discriminate].
  intros _. cbn [mbind result_bind].
  destruct (elevated _); [|reflexivity].
  destruct (default [] _); reflexivity.
Qed.


Lemma notify_venue_raises (v : venue) :
  is_ok (nearest_station M v stations) = false ->
  is_ok (notify_venue M stations subs v) = false.
Proof.
  unfold notify_venue.
  destruct (nearest_station M v stations) as [nearest|e]; [discriminate|reflexivity].
Qed.

Lemma for_each_venues_served (venues : list venue) (printed : list notification) :
  (for_each (venue_body M stations subs) venues printed).1 =
  printed ++ omap (notification_of M stations subs) (served M stations venues).
Proof.
  revert printed. induction venues as [|v rest IH]; intros printed.
  - cbn. rewrite app_nil_r. reflexivity.
  - cbn [for_each served]. unfold venue_body at 1.
    destruct (is_ok (nearest_station M v stations)) eqn:E.
    + change (omap (notification_of M stations subs) (v :: served M stations rest))
        with (match notification_of M stations subs v with
              | Some n => n :: omap (notification_of M stations subs) (served M stations rest)
              | None => omap (notification_of M stations subs) (served M stations rest)
              end).
      unfold notification_of at 1. apply notify_venue_ok in E.
      destruct (notify_venue M stations subs v) as [[n|]|e]; [| |discriminate].
      * rewrite IH, <- app_assoc. reflexivity.
      * apply IH.
    + apply notify_venue_raises in E.
      destruct (notify_venue M stations subs v) as [[n|]|e]; try discriminate.
      cbn. rewrite app_nil_r. reflexivity.
Qed.



End CycleProperties.




(** * Further properties of the code *)

(** ** Floating-point order, further *)

Lemma leb_nan_l (a b : float) : is_nan a = true -> (a <=? b)%float = false.
Proof.
  rewrite is_nan_Prim2SF, FloatAxioms.leb_spec. unfold SFleb.
  destruct (Prim2SF a); try discriminate. reflexivity.
Qed.

Lemma leb_nan_r (a b : float) : is_nan b = true -> (a <=? b)%float = false.
Proof.
  rewrite is_nan_Prim2SF, FloatAxioms.leb_spec. unfold SFleb.
  destruct (Prim2SF b); try discriminate. destruct (Prim2SF a); reflexivity.
Qed.

Lemma add_nan_l (a b : float) : is_nan a = true -> is_nan (a + b) = true.
Proof.
  rewrite !is_nan_Prim2SF, add_spec. unfold SF64add, SFadd.
  destruct (Prim2SF a); try discriminate. reflexivity.
Qed.

Lemma SFltb_leb_ltb (a b c : spec_float) :
  SFltb a b = true -> SFleb b c = true -> SFltb a c = true.
Proof. unfold SFltb, SFleb. SFcompare_cases a b c. Qed.

Lemma ltb_leb_ltb (a b c : float) :
  (a <? b)%float = true -> (b <=? c)%float = true -> (a <? c)%float = true.
Proof. rewrite !FloatAxioms.ltb_spec, FloatAxioms.leb_spec. apply SFltb_leb_ltb. Qed.

Lemma ltb_number_l (a b : float) : (a <? b)%float = true -> number a.
Proof.
  unfold number. rewrite FloatAxioms.ltb_spec, is_nan_Prim2SF. unfold SFltb.
  destruct (Prim2SF a); try reflexivity. discriminate.
Qed.

Lemma ltb_nan_r (a b : float) : is_nan b = true -> (a <? b)%float = false.
Proof.
  intros H. destruct (a <? b)%float eqn:E; [|reflexivity].
  apply ltb_not_nan_r in E. congruence.
Qed.

Lemma SFcompare_number (x y : spec_float) :
  x <> S754_nan -> y <> S754_nan -> SFcompare x y <> None.
Proof.
  destruct x as [s|s| |s m e], y as [s'|s'| |s' m' e']; cbn; try congruence;
    intros _ _; repeat match goal with b : bool |- _ => destruct b end;
    try discriminate;
    destruct (e ?= e')%Z; try discriminate;
    destruct (PosDef.Pos.compare_cont Eq m m'); discriminate.
Qed.

Lemma eqb_of_not_ltb (a b : float) :
  number a -> number b ->
  (a <? b)%float = false -> (b <? a)%float = false -> (a =? b)%float = true.
Proof.
  unfold number. rewrite !is_nan_Prim2SF, !FloatAxioms.ltb_spec, FloatAxioms.eqb_spec.
  unfold SFltb, SFeqb. rewrite (SFcompare_antisym (Prim2SF a) (Prim2SF b)).
  intros Ha Hb.
  pose proof (SFcompare_number (Prim2SF a) (Prim2SF b)) as H.
  destruct (SFcompare (Prim2SF a) (Prim2SF b)) as [[]|]; cbn; try congruence.
  intros _ _. exfalso. apply H; [destruct (Prim2SF a)|destruct (Prim2SF b)|reflexivity];
    congruence.
Qed.

Lemma leb_ltb_trans (a b c : float) :
  (a <=? b)%float = true -> (b <? c)%float = true -> (a <? c)%float = true.
Proof.
  rewrite !FloatAxioms.ltb_spec, FloatAxioms.leb_spec. unfold SFltb, SFleb.
  generalize (Prim2SF a) (Prim2SF b) (Prim2SF c). intros x y z.
  SFcompare_cases x y z.
Qed.

Lemma eqb_same_value (x y : float) :
  (x =? y)%float = true -> same_value (Prim2SF x) (Prim2SF y).
Proof.
  rewrite FloatAxioms.eqb_spec. unfold SFeqb, same_value.
  destruct (Prim2SF x) as [s|s| |s m e], (Prim2SF y) as [s'|s'| |s' m' e'];
    cbn; try discriminate; eauto;
    try (destruct s; discriminate); try (destruct s'; discriminate);
    try (destruct s, s'; try discriminate; auto; fail).
  change (PosDef.Pos.compare_cont Eq m m') with (m ?= m')%positive.
  destruct s, s'; try discriminate;
    destruct (Z.compare_spec e e'); try discriminate; subst;
    destruct (Pos.compare_spec m m'); try discriminate; subst; auto.
Qed.

Lemma same_value_eqb (x y : float) :
  same_value (Prim2SF x) (Prim2SF y) -> x = y \/ (x =? y)%float = true.
Proof.
  intros [H|(s & s' & Hx & Hy)].
  - left. rewrite <- (SF2Prim_Prim2SF x), <- (SF2Prim_Prim2SF y), H. reflexivity.
  - right. rewrite FloatAxioms.eqb_spec, Hx, Hy. reflexivity.
Qed.

Lemma SFadd_same_value (a a' b b' : spec_float) :
  same_value a a' -> same_value b b' ->
  same_value (SFadd prec emax a b) (SFadd prec emax a' b').
Proof.
  unfold same_value.
  intros [<-|(s & s' & -> & ->)] [<-|(t & t' & -> & ->)]; auto.
  - destruct a as [sa|sa| |sa ma ea]; cbn; eauto.
    destruct sa, t, t'; eauto.
  - destruct b as [sb|sb| |sb mb eb]; cbn; eauto.
    destruct s, s', sb; eauto.
  - cbn. destruct s, s', t, t'; eauto.
Qed.

Lemma SFdiv_same_value (a a' c : spec_float) :
  same_value a a' ->
  same_value (SFdiv prec emax a c) (SFdiv prec emax a' c).
Proof.
  unfold same_value. intros [<-|(s & s' & -> & ->)]; auto.
  destruct c as [sc|sc| |sc mc ec]; cbn; eauto.
Qed.

Lemma mean_same_value (a a' b b' : float) :
  (a =? a')%float = true -> (b =? b')%float = true ->
  let m := ((a + b) / 2)%float in
  let m' := ((a' + b') / 2)%float in
  m = m' \/ (m =? m')%float = true.
Proof.
  intros Ha Hb. cbv zeta. apply same_value_eqb.
  rewrite !div_spec, !add_spec.
  apply SFdiv_same_value, SFadd_same_value; apply eqb_same_value; assumption.
Qed.

(** ** The current reading, further *)

Lemma current_loop_app (gt : option float * json) (l1 l2 : list json) :
  current_loop gt (l1 ++ l2) = current_loop gt l1 ≫= fun gt' => current_loop gt' l2.
Proof.
  revert gt. induction l1 as [|s l1 IH]; intros gt; [reflexivity|].
  cbn [app current_loop]. destruct (current_step gt s) as [gt'|e]; [apply IH|reflexivity].
Qed.

Lemma py_first_truthy (v x : json) : py_first v = Ok x -> truthy v = true.
Proof.
  destruct v as [| | | |s|items|fields]; cbn; try discriminate.
  - destruct s; [discriminate|reflexivity].
  - destruct items; [discriminate|reflexivity].
Qed.

Lemma py_last_truthy (v x : json) : py_last v = Ok x -> truthy v = true.
Proof.
  destruct v as [| | | |s|items|fields]; cbn; try discriminate.
  - destruct s; [discriminate|reflexivity].
  - destruct items; [discriminate|reflexivity].
Qed.

Lemma py_item_get (v x : json) (key : string) (dflt : json) :
  py_item v key = Ok x -> py_get v key dflt = Ok x.
Proof.
  destruct v; cbn; try discriminate.
  destruct (dict_get fields key); [|discriminate]. intros [= <-]. reflexivity.
Qed.

Lemma entry_float_time (entry : json) (g : float) :
  entry_float entry = Ok g -> py_get entry "dateTime" JNull = Ok (entry_time entry).
Proof. unfold entry_float. destruct entry; cbn; try discriminate. reflexivity. Qed.

(** One turn of the loop on a series tagged 00065 whose latest entry can be
    reached. *)
Lemma current_step_latest (gt : option float * json) (s last : json) :
  gage_height_series s -> latest_entry s = Ok last ->
  current_step gt s =
  Ok (match entry_float last with
      | Ok g => (Some g, entry_time last)
      | Raise _ => (None, gt.2)
      end).
Proof.
  intros (c & Hc & Heq). unfold latest_entry, current_step.
  rewrite Hc. cbn [mbind result_bind]. rewrite Heq.
  destruct (py_get s "values" (JList [])) as [vals|e]; [|discriminate].
  cbn [mbind result_bind].
  destruct (py_first vals) as [v0|e] eqn:Hv0; [|discriminate].
  rewrite (py_first_truthy _ _ Hv0). cbn [mbind result_bind].
  destruct (py_item v0 "value") as [block|e] eqn:Hb; [|discriminate].
  rewrite (py_item_get _ _ _ JNull Hb). cbn [mbind result_bind].
  intros Hl. rewrite (py_last_truthy _ _ Hl), Hl. cbn [mbind result_bind].
  fold (entry_float last).
  destruct (entry_float last) as [g|e] eqn:Hg; [|reflexivity].
  rewrite (entry_float_time _ _ Hg). reflexivity.
Qed.

(** X1: the last series of gage height decides: when the series before it were
    walked without an exception and left the time [t0], and the series after it
    carry other codes, the reading is the value of that series' latest entry
    (the last entry of its first block) with that entry's [dateTime]; when
    [float] rejects the value no exception escapes, the reading is absent, and
    the time is still [t0], the time an earlier series left. *)
Theorem fetch_current_gage_reads_latest (net : upstream) (site_id : string)
    (st : Z) (j : json) (pre post : list json) (s last : json)
    (g0 : option float) (t0 : json) :
  iv_get net site_id = Response st (Some j) ->
  raise_for_status st = Ok tt ->
  time_series j = Ok (pre ++ s :: post) ->
  current_loop (None, JNull) pre = Ok (g0, t0) ->
  gage_height_series s -> latest_entry s = Ok last ->
  Forall other_code_current post ->
  fetch_current_gage net site_id =
  Ok (match entry_float last with
      | Ok g => (Some g, entry_time last)
      | Raise _ => (None, t0)
      end).
Proof.
  intros Hnet Hst Hts Hpre Hs Hlast Hpost.
  unfold fetch_current_gage, response_json. rewrite Hnet, Hst. cbn [mbind result_bind].
  rewrite Hts. cbn [mbind result_bind].
  rewrite current_loop_app, Hpre. cbn [mbind result_bind current_loop].
  rewrite (current_step_latest _ _ _ Hs Hlast). cbn [mbind result_bind snd].
  apply current_loop_other_codes, Hpost.
Qed.

Lemma fetch_current_gage_reads_latest_witness :
  fetch_current_gage (answering (Response 200 (Some dv_sample))) "01103500"
    = Ok (Some 3.4%float, JStr "2024-05-04T00:00:00.000") /\
  fetch_current_gage (answering (Response 200 (Some iv_two_series))) "01103500"
    = Ok (None, JStr "2024-01-10T09:15:00.000-05:00").
Proof.
  split.
  - apply (fetch_current_gage_reads_latest _ "01103500" 200 dv_sample [] []
             (JDict [("variable", variable_code "00065");
                     ("values", JList [JDict [("value", JList dv_sample_entries)]])])
             (daily (JStr "2024-05-04T00:00:00.000") (JStr "3.40")) None JNull);
      try reflexivity; [|constructor].
    eexists. split; reflexivity.
  - apply (fetch_current_gage_reads_latest _ "01103500" 200 iv_two_series
             [gage_series [daily (JStr "2024-01-10T09:15:00.000-05:00") (JStr "2.90")]] []
             (gage_series [daily (JStr "2024-01-10T09:30:00.000-05:00") (JStr "Ice")])
             (daily (JStr "2024-01-10T09:30:00.000-05:00") (JStr "Ice"))
             (Some 2.9%float) (JStr "2024-01-10T09:15:00.000-05:00"));
      try reflexivity; [|constructor].
    eexists. split; reflexivity.
Defined.

(** What a turn of the loop leaves: what it found, or a reading read off
    the latest entry of a series of gage height, or no reading and the
    time it found. *)
Lemma current_step_cases (gt gt' : option float * json) (s : json) :
  current_step gt s = Ok gt' ->
  gt' = gt \/ gt' = (None, gt.2) \/
  exists last g, gage_height_series s /\ latest_entry s = Ok last /\
                 entry_float last = Ok g /\ gt' = (Some g, entry_time last).
Proof.
  unfold current_step.
  destruct (current_code s) as [c|e] eqn:Hc; [|discriminate]. cbn [mbind result_bind].
  destruct (py_eq_str c "00065") eqn:Heq; [|intros [= <-]; auto].
  destruct (py_get s "values" (JList [])) as [vals|e] eqn:Hvals; [|discriminate].
  cbn [mbind result_bind].
  destruct (if truthy vals then _ else _) as [[|]|e] eqn:Hhv; cbn [mbind result_bind];
    [|intros [= <-]; auto|discriminate].
  destruct (py_first vals) as [v0|e] eqn:Hv0; [|discriminate]. cbn [mbind result_bind].
  destruct (py_item v0 "value") as [block|e] eqn:Hb; [|discriminate].
  cbn [mbind result_bind].
  destruct (py_last block) as [last|e] eqn:Hl; [|discriminate]. cbn [mbind result_bind].
  fold (entry_float last).
  destruct (entry_float last) as [g|e] eqn:Hg; [|intros [= <-]; auto].
  rewrite (entry_float_time _ _ Hg). intros [= <-]. right. right.
  exists last, g. split; [exists c; auto|]. split; [|auto].
  unfold latest_entry. rewrite Hvals. cbn [mbind result_bind].
  rewrite Hv0. cbn [mbind result_bind]. rewrite Hb. exact Hl.
Qed.

Lemma current_loop_sound (gt : option float * json) (items : list json)
    (g : float) (t : json) :
  current_loop gt items = Ok (Some g, t) ->
  gt = (Some g, t) \/
  exists s last, s ∈ items /\ gage_height_series s /\ latest_entry s = Ok last /\
                 entry_float last = Ok g /\ t = entry_time last.
Proof.
  revert gt. induction items as [|s rest IH]; intros gt; cbn [current_loop].
  - intros [= <-]. left. reflexivity.
  - destruct (current_step gt s) as [gt'|e] eqn:Hs; [|discriminate].
    cbn [mbind result_bind]. intros H.
    destruct (IH gt' H) as [->|(s' & last & Hin & Hrest)].
    + destruct (current_step_cases _ _ _ Hs) as [<-|[[=]|(last & g' & Hg & Hl & Hf & [= <- ->])]];
        [left; reflexivity|].
      right. exists s, last. split; [apply list_elem_of_here|auto].
    + right. exists s', last. split; [apply list_elem_of_further, Hin|exact Hrest].
Qed.

(** X2: a reading is never made up: when [fetch_current_gage] returns a
    reading, the response holds a series tagged 00065 whose latest entry (the
    last entry of its first block) has that reading as [float] of its value and
    the returned time as its [dateTime]. *)
Theorem fetch_current_gage_sound (net : upstream) (site_id : string)
    (g : float) (t : json) :
  fetch_current_gage net site_id = Ok (Some g, t) ->
  exists st j series s last,
    iv_get net site_id = Response st (Some j) /\
    time_series j = Ok series /\ s ∈ series /\
    gage_height_series s /\ latest_entry s = Ok last /\
    entry_float last = Ok g /\ t = entry_time last.
Proof.
  unfold fetch_current_gage, response_json.
  destruct (iv_get net site_id) as [|st [j|]] eqn:Hnet; try discriminate.
  2:{ destruct (raise_for_status st); discriminate. }
  destruct (raise_for_status st); [|discriminate]. cbn [mbind result_bind].
  destruct (time_series j) as [series|e] eqn:Hts; [|discriminate].
  cbn [mbind result_bind]. intros H.
  apply current_loop_sound in H as [[=]|(s & last & Hin & Hrest)].
  exists st, j, series, s, last. auto.
Qed.

Lemma fetch_current_gage_sound_witness :
  exists st j series s last,
    iv_get gauged "01103500" = Response st (Some j) /\
    time_series j = Ok series /\ s ∈ series /\
    gage_height_series s /\ latest_entry s = Ok last /\
    entry_float last = Ok 3.4%float /\
    JStr "2024-05-04T00:00:00.000" = entry_time last.
Proof.
  apply (fetch_current_gage_sound gauged "01103500" 3.4%float
           (JStr "2024-05-04T00:00:00.000")).
  vm_compute. reflexivity.
Defined.

(** X3: a body that is JSON but not an object (an array, a string, a number,
    [null]): [fetch_current_gage] raises [AttributeError] on it, while
    [fetch_30d_daily] returns an empty history. *)
Theorem fetchers_on_a_body_that_is_no_object (net : upstream) (site_id : string)
    (days st : Z) (j : json) :
  raise_for_status st = Ok tt ->
  (forall fields, j <> JDict fields) ->
  (iv_get net site_id = Response st (Some j) ->
   fetch_current_gage net site_id = Raise AttributeError) /\
  (dv_get net site_id days = Response st (Some j) ->
   fetch_30d_daily net site_id days = Ok []).
Proof.
  intros Hst Hj.
  assert (time_series j = Raise AttributeError) as Hts.
  { destruct j; try reflexivity. exfalso. eapply Hj. reflexivity. }
  split; intros Hnet.
  - unfold fetch_current_gage, response_json. rewrite Hnet, Hst. cbn [mbind result_bind].
    rewrite Hts. reflexivity.
  - unfold fetch_30d_daily, response_json. rewrite Hnet, Hst. cbn [mbind result_bind].
    unfold daily_scan. rewrite Hts. reflexivity.
Qed.

Lemma fetchers_on_a_body_that_is_no_object_witness :
  fetch_current_gage (answering (Response 200 (Some (JList [])))) "01103500"
    = Raise AttributeError /\
  fetch_30d_daily (answering (Response 200 (Some (JList [])))) "01103500" 30 = Ok [].
Proof.
  destruct (fetchers_on_a_body_that_is_no_object
              (answering (Response 200 (Some (JList [])))) "01103500" 30 200 (JList []))
    as [H1 H2]; [reflexivity|discriminate|].
  split; [apply H1|apply H2]; reflexivity.
Defined.

(** ** The daily history, further *)

Lemma for_each_invariant {A S : Type} (P : S -> Prop) (body : A -> S -> S * result unit)
    (items : list A) (s : S) :
  P s -> (forall x s, x ∈ items -> P s -> P (body x s).1) ->
  P (for_each body items s).1.
Proof.
  revert s. induction items as [|x rest IH]; intros s Hs Hbody; [exact Hs|].
  cbn [for_each]. pose proof (Hbody x s (list_elem_of_here _ _) Hs) as Hx.
  destruct (body x s) as [s' [u|e]]; cbn [fst] in Hx |- *; [|exact Hx].
  apply IH; [exact Hx|]. intros y s0 Hy. apply Hbody, list_elem_of_further, Hy.
Qed.

(** X4: a reading is never made up, nor taken from a series with another code:
    every reading [fetch_30d_daily] returns is the reading of an entry that
    stands in a block of a series of the response tagged 00065 (also when the
    scan was cut short by an exception). *)
Theorem fetch_30d_daily_sound (net : upstream) (site_id : string) (days : Z)
    (history : list reading) :
  fetch_30d_daily net site_id days = Ok history ->
  exists st j, dv_get net site_id days = Response st (Some j) /\
               Forall (reading_in j) history.
Proof.
  unfold fetch_30d_daily, response_json.
  destruct (dv_get net site_id days) as [|st [j|]] eqn:Hnet; try discriminate.
  2:{ destruct (raise_for_status st); discriminate. }
  destruct (raise_for_status st); [|discriminate]. cbn [mbind result_bind].
  intros [= <-]. exists st, j. split; [reflexivity|].
  unfold daily_scan. destruct (time_series j) as [series|e] eqn:Hts; [|constructor].
  apply for_each_invariant; [constructor|].
  intros s h Hs Hh. unfold series_body.
  destruct (daily_code s) as [c|e] eqn:Hc; [|exact Hh].
  destruct (py_eq_str c "00065") eqn:Heq; cbn [negb]; [|exact Hh].
  destruct (series_blocks s) as [blocks|e] eqn:Hb; [|exact Hh].
  apply for_each_invariant; [exact Hh|].
  intros vb h1 Hvb Hh1. unfold block_body.
  destruct (block_entries vb) as [entries|e] eqn:He; [|exact Hh1].
  apply for_each_invariant; [exact Hh1|].
  intros e h2 Hin Hh2. unfold entry_body.
  destruct (daily_entry e) as [[r|]|x] eqn:Hr; cbn [fst]; try exact Hh2.
  apply Forall_app. split; [exact Hh2|]. constructor; [|constructor].
  exists series, s, c, blocks, vb, entries, e. auto 10.
Qed.

Lemma fetch_30d_daily_sound_witness :
  exists st j, dv_get gauged "01103500" 30 = Response st (Some j) /\
    Forall (reading_in j) [ {| date := "2024-05-01"; value := 3.21 |};
                            {| date := "2024-05-04"; value := 3.4 |} ].
Proof.
  apply (fetch_30d_daily_sound gauged "01103500" 30). vm_compute. reflexivity.
Defined.

Lemma before_T_split (s : string) :
  s = before_T s \/ exists rest, s = before_T s +:+ String "T" rest.
Proof.
  induction s as [|c s IH]; [left; reflexivity|]. cbn [before_T].
  destruct (Ascii.eqb c "T") eqn:E.
  - apply Ascii.eqb_eq in E as ->. right. exists s. reflexivity.
  - destruct IH as [IH|[rest IH]].
    + left. f_equal. exact IH.
    + right. exists rest.
      change (String c s = String c (before_T s +:+ String "T" rest)).
      f_equal. exact IH.
Qed.

Lemma before_T_free (s a b : string) : before_T s <> a +:+ String "T" b.
Proof.
  revert a. induction s as [|c s IH]; intros a; cbn [before_T].
  - destruct a; discriminate.
  - destruct (Ascii.eqb c "T") eqn:E; [destruct a; discriminate|].
    destruct a as [|c' a]; cbn.
    + intros [= -> _]. discriminate.
    + intros [= _ H]. exact (IH _ H).
Qed.

(** X5: what a reading holds: its value is [float] of the entry's value, which
    is neither null nor empty; its date is the entry's [dateTime] up to the
    first letter T: all of it when it has no T, the empty string when the entry
    has no [dateTime].  So no date of a reading contains a T. *)
Theorem daily_entry_reading (entry : json) (r : reading) :
  daily_entry entry = Ok (Some r) ->
  has_value entry = true /\ py_float (entry_value entry) = Ok (value r) /\
  exists dt, py_get entry "dateTime" (JStr "") = Ok (JStr dt) /\
    (dt = date r \/ exists rest, dt = date r +:+ String "T" rest) /\
    (forall a b, date r <> a +:+ String "T" b).
Proof.
  unfold daily_entry, has_value, entry_value.
  destruct entry as [| | | | | |fields]; try discriminate.
  cbn [py_get mbind result_bind].
  destruct (default (JStr "") (dict_get fields "dateTime")) as [| | | |dt| |];
    try discriminate.
  cbn [py_split_T_first mbind result_bind].
  destruct (not_none_or_empty _); [|discriminate].
  destruct (py_float _) as [x|e]; [|discriminate]. cbn [mbind result_bind].
  intros [= <-]. cbn [date value]. split; [reflexivity|]. split; [reflexivity|].
  exists dt. split; [reflexivity|]. split; [apply before_T_split|apply before_T_free].
Qed.

Lemma daily_entry_reading_witness :
  let entry := daily (JStr "2024-05-01T00:00:00.000") (JStr "3.21") in
  let r := {| date := "2024-05-01"; value := 3.21 |} in
  has_value entry = true /\ py_float (entry_value entry) = Ok (value r) /\
  exists dt, py_get entry "dateTime" (JStr "") = Ok (JStr dt) /\
    (dt = date r \/ exists rest, dt = date r +:+ String "T" rest) /\
    (forall a b, date r <> a +:+ String "T" b).
Proof.
  cbv zeta.
  apply (daily_entry_reading (daily (JStr "2024-05-01T00:00:00.000") (JStr "3.21"))
           {| date := "2024-05-01"; value := 3.21 |}).
  vm_compute. reflexivity.
Defined.

(** X6: a series whose list of variable codes is empty splits the fetchers:
    [fetch_current_gage] passes over it ([var] is falsy, the code is [None]);
    in [fetch_30d_daily] the index [[0]] raises, which ends the scan: the
    history is that of the series before it, and the series after it are not
    read. *)
Theorem series_with_no_variable_code (net : upstream) (site_id : string)
    (days st : Z) (j : json) (pre post : list json)
    (sf vf : list (string * json)) :
  dict_get sf "variable" = Some (JDict vf) ->
  dict_get vf "variableCode" = Some (JList []) ->
  (forall gt, current_step gt (JDict sf) = Ok gt) /\
  (dv_get net site_id days = Response st (Some j) ->
   raise_for_status st = Ok tt ->
   time_series j = Ok (pre ++ JDict sf :: post) ->
   fetch_30d_daily net site_id days = Ok (for_each series_body pre []).1).
Proof.
  intros Hv Hc. split.
  - intros gt. unfold current_step, current_code. cbn [py_get].
    rewrite Hv. cbn [default from_option Datatypes.id mbind result_bind py_get].
    rewrite Hc. reflexivity.
  - intros Hnet Hst Hts. unfold fetch_30d_daily, response_json.
    rewrite Hnet, Hst. cbn [mbind result_bind]. unfold daily_scan. rewrite Hts.
    rewrite for_each_app.
    destruct (for_each series_body pre []) as [h [u|e]]; [|reflexivity].
    cbn [for_each]. unfold series_body at 1, daily_code. cbn [py_get].
    rewrite Hv. cbn [default from_option Datatypes.id mbind result_bind py_get].
    rewrite Hc. reflexivity.
Qed.

Lemma series_with_no_variable_code_witness :
  fetch_current_gage (answering (Response 200 (Some dv_no_code))) "01103500"
    = Ok (Some 3.4%float, JStr "2024-05-03T00:00:00.000") /\
  fetch_30d_daily (answering (Response 200 (Some dv_no_code))) "01103500" 30
    = Ok [ {| date := "2024-05-01"; value := 3.21 |} ].
Proof.
  split; [vm_compute; reflexivity|].
  destruct (series_with_no_variable_code
              (answering (Response 200 (Some dv_no_code))) "01103500" 30 200 dv_no_code
              [gage_series [daily (JStr "2024-05-01T00:00:00.000") (JStr "3.21")]]
              [gage_series [daily (JStr "2024-05-03T00:00:00.000") (JStr "3.40")]]
              [("variable", JDict [("variableCode", JList [])]);
               ("values", JList [JDict [("value", JList [
                  daily (JStr "2024-05-02T00:00:00.000") (JStr "9.99")])]])]
              [("variableCode", JList [])] eq_refl eq_refl) as [_ H].
  rewrite H; reflexivity.
Defined.

(** ** The risk classifier, further *)

(** X7: a higher reading is never given a lower label: for one median, the
    label of a reading [c1 <= c2] is at most the label of [c2] (low < medium <
    high). *)
Theorem risk_from_median_monotone (c1 c2 m : float) :
  (c1 <=? c2)%float = true ->
  severity (risk_from_median (Some c1) (Some m)) <=
  severity (risk_from_median (Some c2) (Some m)).
Proof.
  intros H. unfold risk_from_median.
  destruct (c2 <=? m + 0.5)%float eqn:E2.
  - rewrite (leb_trans _ _ _ H E2). reflexivity.
  - destruct (c2 <=? m + 1.5)%float eqn:E3.
    + rewrite (leb_trans _ _ _ H E3).
      destruct (c1 <=? m + 0.5)%float; cbn; lia.
    + destruct (c1 <=? m + 0.5)%float; [cbn; lia|].
      destruct (c1 <=? m + 1.5)%float; cbn; lia.
Qed.

Lemma risk_from_median_monotone_witness :
  severity (risk_from_median (Some 2.4%float) (Some 2%float)) <=
  severity (risk_from_median (Some 3.4%float) (Some 2%float)).
Proof. apply (risk_from_median_monotone 2.4 3.4 2). vm_compute. reflexivity. Defined.

(** X8: a reading or a median that is NaN is classified [high]: every
    comparison with NaN is false. *)
Theorem risk_from_median_nan (c m : float) :
  is_nan c = true \/ is_nan m = true ->
  risk_from_median (Some c) (Some m) = "high".
Proof.
  intros [H|H]; unfold risk_from_median.
  - rewrite !(leb_nan_l _ _ H). reflexivity.
  - rewrite !(leb_nan_r _ _ (add_nan_l _ _ H)). reflexivity.
Qed.

Lemma risk_from_median_nan_witness :
  risk_from_median (Some nan) (Some 2%float) = "high" /\
  risk_from_median (Some 2%float) (Some nan) = "high".
Proof.
  split; apply risk_from_median_nan; [left|right]; vm_compute; reflexivity.
Defined.

(** X9: with a median between -1048576 and 1048576 and a finite reading, the
    classifier decides as exact arithmetic would as soon as the reading is not
    within [slack] of a threshold: it is [low] up to median + 0.5, [medium]
    above that up to median + 1.5, and [high] above that (values in units of
    2^-1074).  In particular a reading at or below the median is [low], and a
    reading at or above median + 2 is [high]. *)
Theorem risk_from_median_thresholds (c m : float) :
  (-0x1p20 <=? m)%float = true -> (m <=? 0x1p20)%float = true ->
  (ftame c = true ->
   ((fval c <= fval m + fval 0.5%float - slack)%Z ->
      risk_from_median (Some c) (Some m) = "low") /\
   ((fval m + fval 0.5%float + slack < fval c)%Z ->
    (fval c <= fval m + fval 1.5%float - slack)%Z ->
      risk_from_median (Some c) (Some m) = "medium") /\
   ((fval m + fval 1.5%float + slack < fval c)%Z ->
      risk_from_median (Some c) (Some m) = "high")) /\
  ((c <=? m)%float = true -> risk_from_median (Some c) (Some m) = "low") /\
  ((m + 2 <=? c)%float = true -> risk_from_median (Some c) (Some m) = "high").
Proof.
  intros Hlo Hhi.
  assert (ftame (-0x1p20)%float = true) as Tlo by reflexivity.
  assert (ftame 0x1p20%float = true) as Thi by reflexivity.
  pose proof (between_tame _ _ m Tlo Thi Hlo Hhi) as Tm.
  pose proof Hlo as Hlo'. pose proof Hhi as Hhi'.
  rewrite (leb_fval _ _ Tlo Tm) in Hlo'. rewrite (leb_fval _ _ Tm Thi) in Hhi'.
  apply Z.leb_le in Hlo', Hhi'.
  assert (ftame (m + 0.5) = true /\
          (Z.abs (fval (m + 0.5) - (fval m + fval 0.5%float)) <= 3 * 2 ^ 1042)%Z) as [T1 B1].
  { eapply add_const_in_range;
      [vm_compute; reflexivity|lia|exact Tm|reflexivity|reflexivity|lia]. }
  assert (ftame (m + 1.5) = true /\
          (Z.abs (fval (m + 1.5) - (fval m + fval 1.5%float)) <= 3 * 2 ^ 1042)%Z) as [T3 B3].
  { eapply add_const_in_range;
      [vm_compute; reflexivity|lia|exact Tm|reflexivity|reflexivity|lia]. }
  assert (ftame (m + 2) = true /\
          (Z.abs (fval (m + 2) - (fval m + fval 2%float)) <= 3 * 2 ^ 1042)%Z) as [T4 B4].
  { eapply add_const_in_range;
      [vm_compute; reflexivity|lia|exact Tm|reflexivity|reflexivity|lia]. }
  assert ((2 * (3 * 2 ^ 1042) < fval 0.5%float)%Z) as G0 by reflexivity.
  assert ((fval 0.5%float + 2 * (3 * 2 ^ 1042) < fval 1.5%float)%Z) as G13 by reflexivity.
  assert ((fval 1.5%float + 2 * (3 * 2 ^ 1042) < fval 2%float)%Z) as G34 by reflexivity.
  assert ((m <=? m + 0.5)%float = true) as Hm1.
  { rewrite (leb_fval _ _ Tm T1). apply Z.leb_le.
    remember (3 * 2 ^ 1042)%Z as delta. remember (fval 0.5%float) as a1. lia. }
  assert ((m + 0.5 <? m + 1.5)%float = true) as H13.
  { rewrite (ltb_fval _ _ T1 T3). apply Z.ltb_lt.
    remember (3 * 2 ^ 1042)%Z as delta. remember (fval 0.5%float) as a1.
    remember (fval 1.5%float) as a3. lia. }
  assert ((m + 1.5 <? m + 2)%float = true) as H34.
  { rewrite (ltb_fval _ _ T3 T4). apply Z.ltb_lt.
    remember (3 * 2 ^ 1042)%Z as delta. remember (fval 2%float) as a4.
    remember (fval 1.5%float) as a3. lia. }
  unfold slack. split; [|split].
  - intros Tc. unfold risk_from_median.
    rewrite (leb_fval _ _ Tc T1), (leb_fval _ _ Tc T3).
    remember (3 * 2 ^ 1042)%Z as delta. remember (fval 0.5%float) as a1.
    remember (fval 1.5%float) as a3.
    split; [|split].
    + intros H. replace (fval c <=? fval (m + 0.5))%Z with true; [reflexivity|].
      symmetry. apply Z.leb_le. lia.
    + intros H H'. replace (fval c <=? fval (m + 0.5))%Z with false.
      * replace (fval c <=? fval (m + 1.5))%Z with true; [reflexivity|].
        symmetry. apply Z.leb_le. lia.
      * symmetry. apply Z.leb_gt. lia.
    + intros H. replace (fval c <=? fval (m + 0.5))%Z with false.
      * replace (fval c <=? fval (m + 1.5))%Z with false; [reflexivity|].
        symmetry. apply Z.leb_gt. lia.
      * symmetry. apply Z.leb_gt. lia.
  - intros H. unfold risk_from_median. rewrite (leb_trans _ _ _ H Hm1). reflexivity.
  - intros H. unfold risk_from_median.
    pose proof (ltb_leb_ltb _ _ _ H34 H) as H3.
    pose proof (ltb_trans _ _ _ H13 H3) as H1.
    rewrite (ltb_not_leb _ _ H1), (ltb_not_leb _ _ H3). reflexivity.
Qed.

Lemma risk_from_median_thresholds_witness :
  risk_from_median (Some 2.25%float) (Some 2%float) = "low" /\
  risk_from_median (Some 3%float) (Some 2%float) = "medium" /\
  risk_from_median (Some 3.75%float) (Some 2%float) = "high" /\
  risk_from_median (Some 1.5%float) (Some 2%float) = "low" /\
  risk_from_median (Some 4.5%float) (Some 2%float) = "high".
Proof.
  assert ((-0x1p20 <=? 2)%float = true) as Hlo by (vm_compute; reflexivity).
  assert ((2 <=? 0x1p20)%float = true) as Hhi by (vm_compute; reflexivity).
  split; [|split; [|split; [|split]]].
  - destruct (risk_from_median_thresholds 2.25 2 Hlo Hhi) as (H & _).
    destruct (H eq_refl) as (Hl & _). apply Hl. vm_compute. discriminate.
  - destruct (risk_from_median_thresholds 3 2 Hlo Hhi) as (H & _).
    destruct (H eq_refl) as (_ & Hm & _).
    apply Hm; vm_compute; (reflexivity || discriminate).
  - destruct (risk_from_median_thresholds 3.75 2 Hlo Hhi) as (H & _).
    destruct (H eq_refl) as (_ & _ & Hh). apply Hh. vm_compute. reflexivity.
  - destruct (risk_from_median_thresholds 1.5 2 Hlo Hhi) as (_ & H & _).
    apply H. vm_compute. reflexivity.
  - destruct (risk_from_median_thresholds 4.5 2 Hlo Hhi) as (_ & _ & H).
    apply H. vm_compute. reflexivity.
Defined.

(** ** The median, further *)

(** X10: the median of an odd number of values is one of the values. *)
Theorem statistics_median_odd_is_item (data : list float) :
  length data mod 2 = 1 ->
  exists m, statistics_median data = Ok m /\ m ∈ data.
Proof.
  intros Hodd. unfold statistics_median.
  assert (length (sorted data) = length data) as Hlen by (rewrite sorted_perm; reflexivity).
  rewrite Hlen, Hodd.
  destruct (length data =? 0) eqn:E0.
  { apply Nat.eqb_eq in E0. rewrite E0 in Hodd. discriminate. }
  cbn [Nat.eqb].
  destruct (lookup_lt_is_Some_2 (sorted data) (length data / 2)) as [x Hx].
  { rewrite Hlen. apply Nat.div_lt; [|lia]. apply Nat.eqb_neq in E0. lia. }
  rewrite Hx. exists x. split; [reflexivity|].
  rewrite <- (sorted_perm data). eapply list_elem_of_lookup_2, Hx.
Qed.

Lemma statistics_median_odd_is_item_witness :
  exists m, statistics_median [3.4; 2.9; 3.1]%float = Ok m /\
            m ∈ [3.4; 2.9; 3.1]%float.
Proof. apply (statistics_median_odd_is_item [3.4; 2.9; 3.1]%float). reflexivity. Defined.

Lemma count_mono (p q : float -> bool) (l : list float) :
  (forall y, p y = true -> q y = true) -> count p l <= count q l.
Proof.
  intros H. induction l as [|y l IH]; [reflexivity|]. cbn [count].
  specialize (H y). destruct (p y) eqn:Ep, (q y) eqn:Eq; cbn; try (apply le_n_S, IH); try (apply le_S, IH); try exact IH.
  specialize (H eq_refl). discriminate.
Qed.

(** A k-th smallest item is unique as a number. *)
Lemma kth_smallest_unique (k : nat) (a b : float) (l : list float) :
  Forall number l -> kth_smallest k a l -> kth_smallest k b l ->
  (a =? b)%float = true.
Proof.
  intros Hnum [Ha [Ha1 Ha2]] [Hb [Hb1 Hb2]].
  rewrite Forall_forall in Hnum.
  apply eqb_of_not_ltb; auto.
  - destruct (a <? b)%float eqn:E; [|reflexivity]. exfalso.
    pose proof (count_mono (fun y => y <=? a)%float (fun y => y <? b)%float l) as H.
    cbv beta in H. enough (count (fun y => (y <=? a)%float) l <= count (fun y => (y <? b)%float) l) by lia.
    apply H. intros y Hy. eapply leb_ltb_trans; eassumption.
  - destruct (b <? a)%float eqn:E; [|reflexivity]. exfalso.
    enough (count (fun y => (y <=? b)%float) l <= count (fun y => (y <? a)%float) l) by lia.
    apply count_mono. intros y Hy. eapply leb_ltb_trans; eassumption.
Qed.

(** X11: the median does not depend on the order of the data: two histories
    with the same values, all of them numbers, have the same median; at most
    the sign of a zero differs. *)
Theorem statistics_median_order_free (data1 data2 : list float) :
  data1 ≡ₚ data2 -> Forall number data1 -> data1 <> [] ->
  exists m1 m2, statistics_median data1 = Ok m1 /\ statistics_median data2 = Ok m2 /\
                (m1 = m2 \/ (m1 =? m2)%float = true).
Proof.
  intros Hp Hnum Hne.
  assert (data2 <> []) as Hne2.
  { intros ->. apply Permutation_nil_r in Hp. congruence. }
  assert (Forall number data2) as Hnum2 by (rewrite <- Hp; exact Hnum).
  pose proof (statistics_median_total data1 Hne) as H1.
  pose proof (statistics_median_total data2 Hne2) as H2.
  destruct (statistics_median data1) as [m1|] eqn:E1; [|discriminate].
  destruct (statistics_median data2) as [m2|] eqn:E2; [|discriminate].
  exists m1, m2. split; [reflexivity|]. split; [reflexivity|].
  apply statistics_median_spec in E1; [|exact Hnum].
  apply statistics_median_spec in E2; [|exact Hnum2].
  unfold statistical_median in E1, E2.
  rewrite <- (Permutation_length Hp) in E2.
  destruct (length data1 mod 2 =? 1).
  - right. eapply kth_smallest_unique; [exact Hnum|exact E1|].
    eapply kth_smallest_perm; [symmetry; exact Hp|exact E2].
  - destruct E1 as (a & b & Ha & Hb & ->). destruct E2 as (a' & b' & Ha' & Hb' & ->).
    apply mean_same_value.
    + eapply kth_smallest_unique; [exact Hnum|exact Ha|].
      eapply kth_smallest_perm; [symmetry; exact Hp|exact Ha'].
    + eapply kth_smallest_unique; [exact Hnum|exact Hb|].
      eapply kth_smallest_perm; [symmetry; exact Hp|exact Hb'].
Qed.

Lemma statistics_median_order_free_witness :
  exists m1 m2,
    statistics_median [3.4; 2.9; 3.1; 3]%float = Ok m1 /\
    statistics_median [2.9; 3.4; 3.1; 3]%float = Ok m2 /\
    (m1 = m2 \/ (m1 =? m2)%float = true).
Proof.
  apply (statistics_median_order_free [3.4; 2.9; 3.1; 3]%float [2.9; 3.4; 3.1; 3]%float).
  - apply perm_swap.
  - repeat constructor.
  - discriminate.
Defined.

(** ** The listing, further *)

Lemma risk_unknown_iff (c m : option float) :
  risk_from_median c m = "unknown" <-> c = None \/ m = None.
Proof.
  destruct c as [c|], m as [m|]; cbn [risk_from_median];
    try (split; [auto|reflexivity]).
  split; [|intros [|]; discriminate].
  destruct (c <=? m + 0.5)%float; [discriminate|].
  destruct (c <=? m + 1.5)%float; discriminate.
Qed.

Lemma station_report_risk (net : upstream) (s : station) :
  risk (station_report net s) =
  risk_from_median (gage_height_ft (station_report net s))
                   (median_30d (station_report net s)).
Proof.
  unfold station_report.
  destruct (fetch_current_gage _ _) as [[g t]|e];
    destruct (_ ≫= _) as [[h m]|e']; reflexivity.
Qed.

Lemma station_report_median_iff (net : upstream) (s : station) :
  median_30d (station_report net s) = None <-> history_30d (station_report net s) = [].
Proof.
  pose proof (station_report_median net s) as H.
  destruct (history_30d (station_report net s)) as [|r h].
  - split; auto.
  - destruct H as (m & -> & _). split; discriminate.
Qed.

(** X12: every row's label is the classifier's answer for the row's own reading
    and median, and it is [unknown] exactly when the reading is absent or the
    history is empty: a station with a reading and at least one daily value
    always gets [low], [medium] or [high]. *)
Theorem api_stations_unknown_iff (net : upstream) :
  Forall (fun row =>
            risk row = risk_from_median (gage_height_ft row) (median_30d row) /\
            (risk row = "unknown" <->
             gage_height_ft row = None \/ history_30d row = []))
         (api_stations net).
Proof.
  unfold api_stations. apply Forall_fmap, Forall_forall. intros s _. cbn.
  split; [apply station_report_risk|].
  rewrite station_report_risk, risk_unknown_iff, station_report_median_iff.
  reflexivity.
Qed.

(** X13: what the fetchers returned is what the row shows: the station's
    configured name, city and coordinates, the reading and its time when the
    current-value fetch returned, and the whole history when the history fetch
    returned (the median of a history that is not empty never raises, so the
    handler of the second [try] does not discard it). *)
Theorem station_report_passes_through (net : upstream) (s : station) :
  let row := station_report net s in
  (row_name row = name s /\ row_city row = city s /\
   row_lat row = lat s /\ row_lon row = lon s) /\
  (forall g t, fetch_current_gage net (site s) = Ok (g, t) ->
     gage_height_ft row = g /\ time row = t) /\
  (forall h, fetch_30d_daily net (site s) 30 = Ok h -> history_30d row = h).
Proof.
  cbv zeta. split; [|split].
  - unfold station_report.
    destruct (fetch_current_gage _ _) as [[g t]|e];
      destruct (_ ≫= _) as [[h m]|e']; repeat split.
  - intros g t Hc. unfold station_report. rewrite Hc.
    destruct (_ ≫= _) as [[h m]|e']; split; reflexivity.
  - intros h Hh. unfold station_report. rewrite Hh. cbn [mbind result_bind].
    destruct (fetch_current_gage _ _) as [[g t]|e];
      (destruct h as [|r h]; [reflexivity|]);
      pose proof (statistics_median_total (value <$> r :: h)) as Ht;
      (destruct (statistics_median (value <$> r :: h)) as [m|x];
       [reflexivity|discriminate Ht; discriminate]).
Qed.

Lemma station_report_passes_through_witness :
  let row := station_report gauged dover in
  gage_height_ft row = Some 3.4%float /\
  time row = JStr "2024-05-04T00:00:00.000" /\
  history_30d row = [ {| date := "2024-05-01"; value := 3.21 |};
                      {| date := "2024-05-04"; value := 3.4 |} ].
Proof.
  cbv zeta.
  destruct (station_report_passes_through gauged dover) as (_ & Hc & Hh).
  destruct (Hc (Some 3.4%float) (JStr "2024-05-04T00:00:00.000")) as [H1 H2];
    [vm_compute; reflexivity|].
  split; [exact H1|]. split; [exact H2|].
  apply Hh. vm_compute. reflexivity.
Defined.

(** X14: a station's row depends on the upstream's answers for that station
    only: two upstreams that answer the same for a station give it the same
    row, whatever they answer for the other stations. *)
Theorem api_stations_row_isolated (net1 net2 : upstream) (i : nat) (s : station) :
  STATIONS !! i = Some s ->
  iv_get net1 (site s) = iv_get net2 (site s) ->
  dv_get net1 (site s) 30 = dv_get net2 (site s) 30 ->
  api_stations net1 !! i = api_stations net2 !! i /\
  api_stations net1 !! i = Some (station_report net1 s).
Proof.
  intros Hs Hiv Hdv. unfold api_stations. rewrite !list_lookup_fmap, Hs. cbn.
  split; [|reflexivity]. f_equal.
  unfold station_report, fetch_current_gage, fetch_30d_daily.
  rewrite Hiv, Hdv. reflexivity.
Qed.

Lemma api_stations_row_isolated_witness :
  api_stations dover_only !! 0 = api_stations gauged !! 0 /\
  api_stations dover_only !! 0 = Some (station_report dover_only dover).
Proof.
  apply (api_stations_row_isolated dover_only gauged 0 dover); reflexivity.
Defined.

(** ** The registry, further *)

Lemma run_ops_snoc (ops : list operation) (op : operation) :
  run_ops (ops ++ [op]) = run_op (run_ops ops) op.
Proof. unfold run_ops. rewrite foldl_app. reflexivity. Qed.

Lemma py_eq_str_true (v : json) (k : string) : py_eq_str v k = true -> v = JStr k.
Proof.
  destruct v; cbn; try discriminate. intros H. apply String.eqb_eq in H. congruence.
Qed.

Lemma api_subscribe_lookup (request_json : json) (subs : registry) (k : string)
    (l : list person) :
  subs !! k = Some l -> truthy (JStr k) = true ->
  (api_subscribe request_json subs).1 !! k =
  Some (l ++ match accepted k (OpSubscribe request_json) with
             | Some p => [p]
             | None => []
             end).
Proof.
  intros Hl Hk.
  assert (forall s : registry, s = subs -> s !! k = Some (l ++ [])) as Hsame
    by (intros s ->; rewrite app_nil_r; exact Hl).
  destruct (truthy request_json) eqn:Ht.
  2:{ rewrite (api_subscribe_falsy _ _ Ht).
      destruct request_json as [| | | | | |fields]; cbn [accepted]; auto.
      destruct fields; [|discriminate]. cbn. auto. }
  destruct request_json as [| | | | | |fields];
    try (rewrite api_subscribe_not_dict by (congruence || reflexivity || exact Ht);
         cbn [accepted]; auto).
  rewrite api_subscribe_dict. cbv zeta. cbn [accepted email request_person].
  destruct (py_eq_str (field fields "venue_id") k) eqn:Ek.
  - apply py_eq_str_true in Ek. rewrite Ek, Hk. cbn [negb orb andb].
    destruct (truthy (field fields "email")); cbn [negb]; [|auto].
    cbn [registry_key mbind option_bind]. rewrite Hl.
    cbn [fmap option_fmap option_map fst]. apply lookup_insert_eq.
  - cbn [andb].
    destruct (negb _ || negb _); [auto|].
    destruct (registry_key (field fields "venue_id")) as [[k'|]|e] eqn:Er; auto.
    cbn [mbind option_bind]. destruct (subs !! k') as [l'|] eqn:El'; auto.
    cbn [fmap option_fmap option_map fst]. rewrite lookup_insert_ne; auto.
    intros ->. destruct (field fields "venue_id"); try discriminate.
    cbn in Er, Ek. injection Er as ->. rewrite String.eqb_refl in Ek. discriminate.
Qed.

Lemma run_ops_accepted (ops : list operation) (k : string) :
  k ∈ venue_ids -> run_ops ops !! k = Some (omap (accepted k) ops).
Proof.
  intros Hk. induction ops as [|op ops IH] using rev_ind.
  - destruct (run_ops_lookup [] k Hk) as [l Hl]. rewrite Hl. f_equal.
    change (run_ops []) with SUBSCRIPTIONS in Hl. revert Hl.
    apply initial_registry_empty. intros k' l'. rewrite lookup_empty. discriminate.
  - rewrite run_ops_snoc, omap_app. cbn [omap list_omap].
    destruct op as [net| |request_json| |M listing];
      try (cbn [run_op accepted]; rewrite app_nil_r; exact IH).
    cbn [run_op].
    rewrite (api_subscribe_lookup _ _ _ _ IH (venue_id_truthy k Hk)).
    destruct (accepted k (OpSubscribe request_json)); reflexivity.
Qed.

(** X15: the list shown for a venue is the record of the requests accepted for
    it: after any sequence of operations, [api_subs] holds for each configured
    venue exactly the persons of the subscribe requests that named it with a
    non-empty email, in the order of the requests (nothing is merged, reordered
    or removed), and no list under any other key. *)
Theorem api_subs_lists_accepted_requests (ops : list operation) (k : string) :
  (k ∈ venue_ids -> api_subs (run_ops ops) !! k = Some (omap (accepted k) ops)) /\
  (k ∉ venue_ids -> api_subs (run_ops ops) !! k = None).
Proof.
  unfold api_subs. split; [apply run_ops_accepted|apply run_ops_lookup_None].
Qed.

Lemma api_subs_lists_accepted_requests_witness :
  api_subs (run_ops [OpSubscribe (JDict ann); OpVenues; OpSubscribe (JDict no_email);
                     OpSubscribe (JDict elsewhere); OpSubscribe (JDict ann)]) !! "cbi"
  = Some [request_person ann; request_person ann].
Proof.
  apply (api_subs_lists_accepted_requests
           [OpSubscribe (JDict ann); OpVenues; OpSubscribe (JDict no_email);
            OpSubscribe (JDict elsewhere); OpSubscribe (JDict ann)] "cbi").
  apply list_elem_of_here.
Defined.

(** X16: the handler lets an exception escape in two cases only: the body is a
    JSON value other than an object that is not falsy (a non-empty array or
    string, a non-zero number, [true]): [AttributeError]; or the request has an
    email and its venue id is a non-empty array or object, which cannot be
    looked up in the registry: [TypeError].  Every other request gets a reply. *)
Theorem api_subscribe_raises_iff (request_json : json) (subs : registry) (e : exn) :
  (api_subscribe request_json subs).2 = Raise e <->
  (truthy request_json = true /\ (forall fields, request_json <> JDict fields) /\
   e = AttributeError) \/
  (exists fields, request_json = JDict fields /\
     truthy (field fields "venue_id") = true /\
     truthy (field fields "email") = true /\
     unhashable (field fields "venue_id") = true /\ e = TypeError).
Proof.
  destruct (truthy request_json) eqn:Ht.
  2:{ rewrite (api_subscribe_falsy _ _ Ht). split; [discriminate|].
      intros [(H & _)|(fields & -> & Hv & _)]; [discriminate|].
      destruct fields; discriminate. }
  destruct request_json as [| | | | | |fields];
    try (rewrite api_subscribe_not_dict by (congruence || exact Ht); cbn [snd];
         split;
         [intros [= <-]; left; repeat split; congruence
         |intros [(_ & _ & ->)|(fields & H & _)]; [reflexivity|discriminate]]).
  rewrite api_subscribe_dict. cbv zeta. cbn [email request_person].
  split.
  - destruct (truthy (field fields "venue_id")) eqn:Ev; [|discriminate].
    destruct (truthy (field fields "email")) eqn:Ee; [|discriminate].
    cbn [negb orb].
    destruct (registry_key (field fields "venue_id")) as [key|x] eqn:Er.
    + destruct (key ≫= _) as [[k l]|]; discriminate.
    + intros [= <-]. right. exists fields. repeat split; try assumption.
      * destruct (field fields "venue_id"); cbn in Er |- *; congruence.
      * destruct (field fields "venue_id"); cbn in Er; congruence.
  - intros [(_ & H & _)|(fields' & [= <-] & -> & -> & Hu & ->)].
    + exfalso. eapply H. reflexivity.
    + cbn [negb orb]. destruct (field fields "venue_id"); try discriminate; reflexivity.
Qed.

Lemma api_subscribe_raises_iff_witness :
  (api_subscribe (JStr "cbi") SUBSCRIPTIONS).2 = Raise AttributeError /\
  (api_subscribe (JDict [("venue_id", JList [JStr "cbi"]); ("email", JStr "a@b.c")])
     SUBSCRIPTIONS).2 = Raise TypeError.
Proof.
  split.
  - apply (api_subscribe_raises_iff (JStr "cbi") SUBSCRIPTIONS AttributeError).
    left. repeat split. discriminate.
  - apply (api_subscribe_raises_iff _ SUBSCRIPTIONS TypeError).
    right. eexists. repeat split.
Defined.

(** ** The nearest station, further *)

(** The loop of [min] with every key a number: the item kept at the start
    stays when no later key is below its key; otherwise the result is the
    first item whose key is the least. *)
Lemma min_loop_first {A : Type} (key : A -> result float) (items : list A)
    (best : A) (bk : float) :
  number bk ->
  Forall (fun x => exists d, key x = Ok d /\ number d) items ->
  (min_loop key best bk items = Ok best /\
   Forall (fun x => exists d, key x = Ok d /\ (bk <=? d)%float = true) items) \/
  (exists pre n post dn,
     items = pre ++ n :: post /\ min_loop key best bk items = Ok n /\
     key n = Ok dn /\ (dn <? bk)%float = true /\
     Forall (fun x => exists d, key x = Ok d /\ (dn <? d)%float = true) pre /\
     Forall (fun x => exists d, key x = Ok d /\ (dn <=? d)%float = true) post).
Proof.
  intros Hbk Hall. revert best bk Hbk.
  induction Hall as [|x rest (k & Hk & Hnk) _ IH]; intros best bk Hbk.
  - left. split; [reflexivity|constructor].
  - cbn [min_loop]. rewrite Hk. cbn [mbind result_bind].
    destruct (k <? bk)%float eqn:E.
    + right. destruct (IH x k Hnk) as [[Hn Hrest]|(pre & n & post & dn & -> & Hn & Hdn & Hlt & Hpre & Hpost)].
      * exists [], x, rest, k. repeat split; auto.
      * exists (x :: pre), n, post, dn. repeat split; auto.
        -- eapply ltb_trans; eassumption.
        -- constructor; [|exact Hpre]. eauto.
    + pose proof (leb_total _ _ Hnk Hbk E) as Hle.
      destruct (IH best bk Hbk) as [[Hn Hrest]|(pre & n & post & dn & -> & Hn & Hdn & Hlt & Hpre & Hpost)].
      * left. split; [exact Hn|]. constructor; [|exact Hrest]. eauto.
      * right. exists (x :: pre), n, post, dn. repeat split; auto.
        constructor; [|exact Hpre]. exists k. split; [exact Hk|].
        eapply ltb_leb_ltb; eassumption.
Qed.

(** X17: among stations at the same least distance the one listed first is
    chosen: when every distance evaluates to a number, the station [min]
    returns stands at a place of the listing before which every station is
    strictly farther from the venue, and after which none is nearer. *)
Theorem nearest_station_first_of_the_nearest (M : libm) (v : venue)
    (stations : list station_row) :
  stations <> [] ->
  Forall (fun s => exists d, station_key M v s = Ok d /\ number d) stations ->
  exists pre n post dn,
    stations = pre ++ n :: post /\
    nearest_station M v stations = Ok n /\ station_key M v n = Ok dn /\
    Forall (fun s => exists d, station_key M v s = Ok d /\ (dn <? d)%float = true) pre /\
    Forall (fun s => exists d, station_key M v s = Ok d /\ (dn <=? d)%float = true) post.
Proof.
  intros Hne Hall. destruct Hall as [|x rest (k & Hk & Hnk) Hrest]; [congruence|].
  unfold nearest_station. cbn [py_min]. rewrite Hk. cbn [mbind result_bind].
  destruct (min_loop_first (station_key M v) rest x k Hnk Hrest)
    as [[Hn Hle]|(pre & n & post & dn & -> & Hn & Hdn & Hlt & Hpre & Hpost)].
  - exists [], x, rest, k. repeat split; auto.
  - exists (x :: pre), n, post, dn. repeat split; auto.
    constructor; [|exact Hpre]. eauto.
Qed.

Lemma nearest_station_first_of_the_nearest_witness :
  let stations := [origin_row "01104705" "low"; origin_row "01104710" "high"] in
  exists pre n post dn,
    stations = pre ++ n :: post /\
    nearest_station libm_exact_points origin_venue stations = Ok n /\
    station_key libm_exact_points origin_venue n = Ok dn /\
    Forall (fun s => exists d, station_key libm_exact_points origin_venue s = Ok d /\
                               (dn <? d)%float = true) pre /\
    Forall (fun s => exists d, station_key libm_exact_points origin_venue s = Ok d /\
                               (dn <=? d)%float = true) post.
Proof.
  intros stations.
  apply (nearest_station_first_of_the_nearest libm_exact_points origin_venue stations);
    [discriminate|].
  repeat constructor; exists 0%float; split; vm_compute; reflexivity.
Defined.

Example nearest_of_two_at_the_origin :
  nearest_station libm_exact_points origin_venue
    [origin_row "01104705" "low"; origin_row "01104710" "high"]
  = Ok (origin_row "01104705" "low").
Proof. vm_compute. reflexivity. Qed.

Lemma min_loop_nan {A : Type} (key : A -> result float) (items : list A)
    (best : A) (bk : float) :
  is_nan bk = true ->
  Forall (fun x => is_ok (key x) = true) items ->
  min_loop key best bk items = Ok best.
Proof.
  intros Hbk Hall. induction Hall as [|x rest Hx _ IH]; [reflexivity|].
  cbn [min_loop]. destruct (key x) as [k|e]; [|discriminate].
  cbn [mbind result_bind]. rewrite (ltb_nan_r _ _ Hbk). exact IH.
Qed.

Lemma min_loop_number {A : Type} (key : A -> result float) (items : list A)
    (best n : A) (bk : float) :
  key best = Ok bk -> number bk ->
  min_loop key best bk items = Ok n ->
  exists dn, key n = Ok dn /\ number dn.
Proof.
  revert best bk. induction items as [|x rest IH]; intros best bk Hb Hbk; cbn [min_loop].
  - intros [= <-]. eauto.
  - destruct (key x) as [k|e] eqn:Hk; [|discriminate]. cbn [mbind result_bind].
    destruct (k <? bk)%float eqn:E.
    + apply (IH x k Hk). eapply ltb_number_l, E.
    + apply (IH best bk Hb Hbk).
Qed.

(** X18: a distance that is NaN decides the choice by its place alone: when the
    distance of the first station is NaN (and the others evaluate), the first
    station is returned whatever the other distances are; when it is a number,
    no station whose distance is NaN is ever returned. *)
Theorem nearest_station_nan (M : libm) (v : venue) (s : station_row)
    (rest : list station_row) (d : float) :
  station_key M v s = Ok d ->
  (is_nan d = true ->
   Forall (fun x => is_ok (station_key M v x) = true) rest ->
   nearest_station M v (s :: rest) = Ok s) /\
  (is_nan d = false ->
   forall n, nearest_station M v (s :: rest) = Ok n ->
   exists dn, station_key M v n = Ok dn /\ is_nan dn = false).
Proof.
  intros Hd. unfold nearest_station. cbn [py_min]. rewrite Hd.
  cbn [mbind result_bind]. split.
  - intros Hnan Hrest. apply min_loop_nan; assumption.
  - intros Hnum n Hn. eapply min_loop_number; [exact Hd|exact Hnum|exact Hn].
Qed.

Lemma nearest_station_nan_witness :
  nearest_station libm_exact_points origin_venue
    [uncharted_row "01104705" "high"; origin_row "01104710" "low"]
    = Ok (uncharted_row "01104705" "high") /\
  exists dn,
    station_key libm_exact_points origin_venue (origin_row "01104710" "low") = Ok dn /\
    is_nan dn = false.
Proof.
  split.
  - apply (nearest_station_nan libm_exact_points origin_venue
             (uncharted_row "01104705" "high") [origin_row "01104710" "low"] nan);
      [vm_compute; reflexivity|vm_compute; reflexivity|].
    repeat constructor.
  - apply (nearest_station_nan libm_exact_points origin_venue
             (origin_row "01104710" "low") [uncharted_row "01104705" "high"] 0%float);
      vm_compute; reflexivity.
Defined.

(** ** The notifier, further *)

Lemma notification_of_spec (M : libm) (stations : list station_row)
    (subs : registry) (v : venue) (n : notification) :
  notification_of M stations subs v = Some n ->
  n_venue n = vname v /\ elevated (n_risk n) = true /\ 1 <= n_count n /\
  default [] (subs !! id v) <> [].
Proof.
  unfold notification_of, notify_venue.
  destruct (nearest_station M v stations) as [nearest|e]; cbn [mbind result_bind];
    [|discriminate].
  destruct (elevated (risk nearest)) eqn:E; [|discriminate].
  destruct (default [] (subs !! id v)) as [|p l]; [discriminate|].
  intros [= <-]. cbn. repeat split; [exact E|lia|discriminate].
Qed.

Lemma served_sublist (M : libm) (stations : list station_row) (venues : list venue) :
  sublist (served M stations venues) venues.
Proof.
  induction venues as [|v rest IH]; cbn [served]; [constructor|].
  destruct (is_ok _); [constructor; exact IH|apply sublist_nil_l].
Qed.

Lemma omap_notifications (M : libm) (stations : list station_row)
    (subs : registry) (venues : list venue) :
  sublist (n_venue <$> omap (notification_of M stations subs) venues)
          (vname <$> venues) /\
  Forall (fun n => elevated (n_risk n) = true /\ 1 <= n_count n)
         (omap (notification_of M stations subs) venues).
Proof.
  induction venues as [|v rest [IH1 IH2]]; [split; constructor|].
  cbn [omap list_omap fmap list_fmap].
  destruct (notification_of M stations subs v) as [n|] eqn:E.
  - apply notification_of_spec in E as (Hv & He & Hc & _).
    cbn [fmap list_fmap]. rewrite Hv. split; constructor; auto.
  - split; [constructor; exact IH1|exact IH2].
Qed.

(** X19: what a cycle can print: at most one notification per venue, in the
    order of the venues and under the venue's name; each for a risk of [medium]
    or [high] and for at least one subscriber.  With no subscriber in any
    venue's list nothing is printed, whatever the risks. *)
Theorem notifier_cycle_prints (M : libm) (listing : result (list station_row))
    (subs : registry) :
  let printed := (notifier_cycle M listing subs).1 in
  sublist (n_venue <$> printed) (vname <$> VENUES) /\
  Forall (fun n => elevated (n_risk n) = true /\ 1 <= n_count n) printed /\
  ((forall v, v ∈ VENUES -> default [] (subs !! id v) = []) -> printed = []).
Proof.
  cbv zeta. destruct listing as [stations|e]; cbn [notifier_cycle fst].
  2:{ split; [apply sublist_nil_l|]. split; [constructor|reflexivity]. }
  unfold notify_all. rewrite (for_each_venues_served M stations subs VENUES []).
  cbn [app].
  destruct (omap_notifications M stations subs (served M stations VENUES)) as [H1 H2].
  split; [|split; [exact H2|]].
  - etransitivity; [exact H1|]. apply fmap_sublist, served_sublist.
  - intros Hnone.
    assert (forall venues, (forall v, v ∈ venues -> v ∈ VENUES) ->
              omap (notification_of M stations subs) venues = []) as Hempty.
    { induction venues as [|v rest IH]; intros Hin; [reflexivity|].
      cbn [omap list_omap].
      destruct (notification_of M stations subs v) as [n|] eqn:E.
      - apply notification_of_spec in E as (_ & _ & _ & Hs).
        exfalso. apply Hs, Hnone, Hin, list_elem_of_here.
      - apply IH. intros v' Hv'. apply Hin, list_elem_of_further, Hv'. }
    apply Hempty. intros v Hv.
    eapply elem_of_sublist; [exact Hv|apply served_sublist].
Qed.

Lemma notifier_cycle_prints_witness :
  (notifier_cycle libm_exact_points (Ok [origin_row "01104705" "high"]) SUBSCRIPTIONS).1
  = [].
Proof.
  apply (notifier_cycle_prints libm_exact_points (Ok [origin_row "01104705" "high"])
           SUBSCRIPTIONS).
  intros v Hv. unfold VENUES in Hv.
  rewrite !elem_of_cons, elem_of_nil in Hv.
  destruct Hv as [->|[->|[]]]; reflexivity.
Defined.

(** ** The listing, the registry and the notifier together *)

Lemma min_loop_fmap {A B : Type} (f : A -> B) (key : B -> result float)
    (items : list A) (best : A) (bk : float) :
  min_loop key (f best) bk (f <$> items) =
  f <$> min_loop (fun x => key (f x)) best bk items.
Proof.
  revert best bk. induction items as [|x rest IH]; intros best bk; [reflexivity|].
  cbn [fmap list_fmap min_loop]. destruct (key (f x)) as [k|e]; [|reflexivity].
  cbn [mbind result_bind]. destruct (k <? bk)%float; apply IH.
Qed.

Lemma py_min_fmap {A B : Type} (f : A -> B) (key : B -> result float) (items : list A) :
  py_min key (f <$> items) = f <$> py_min (fun x => key (f x)) items.
Proof.
  destruct items as [|x rest]; [reflexivity|]. cbn [fmap list_fmap py_min].
  destruct (key (f x)) as [k|e]; [|reflexivity]. cbn [mbind result_bind].
  apply min_loop_fmap.
Qed.

Lemma min_loop_ext {A : Type} (key1 key2 : A -> result float) (items : list A)
    (best : A) (bk : float) :
  (forall x, key1 x = key2 x) ->
  min_loop key1 best bk items = min_loop key2 best bk items.
Proof.
  intros Hk. revert best bk. induction items as [|x rest IH]; intros best bk;
    [reflexivity|].
  cbn [min_loop]. rewrite Hk. destruct (key2 x) as [k|e]; [|reflexivity].
  cbn [mbind result_bind]. destruct (k <? bk)%float; apply IH.
Qed.

Lemma py_min_ext {A : Type} (key1 key2 : A -> result float) (items : list A) :
  (forall x, key1 x = key2 x) -> py_min key1 items = py_min key2 items.
Proof.
  intros Hk. destruct items as [|x rest]; [reflexivity|]. cbn [py_min].
  rewrite Hk. destruct (key2 x) as [k|e]; [|reflexivity]. cbn [mbind result_bind].
  apply min_loop_ext, Hk.
Qed.

Lemma station_report_coordinates (net : upstream) (s : station) :
  row_site (station_report net s) = site s /\
  row_lat (station_report net s) = lat s /\ row_lon (station_report net s) = lon s.
Proof.
  unfold station_report.
  destruct (fetch_current_gage _ _) as [[g t]|e];
    destruct (_ ≫= _) as [[h m]|e']; repeat split.
Qed.

(** X20: over the listing of [api_stations], the station nearest to a venue is
    chosen by the configured coordinates alone: it is the row of the configured
    station that [min] picks by the distance between the station's and the
    venue's coordinates.  So the upstream's answers decide the risk that is
    read off that row, never which station it is. *)
Theorem nearest_station_of_listing (M : libm) (v : venue) (net net' : upstream) :
  nearest_station M v (api_stations net) =
    station_report net <$>
      py_min (fun s => dist_km M (lat s) (lon s) (vlat v) (vlon v)) STATIONS /\
  row_site <$> nearest_station M v (api_stations net) =
    row_site <$> nearest_station M v (api_stations net').
Proof.
  assert (forall net0,
            nearest_station M v (api_stations net0) =
            station_report net0 <$>
              py_min (fun s => dist_km M (lat s) (lon s) (vlat v) (vlon v)) STATIONS)
    as Hnear.
  { intros net0. unfold nearest_station, api_stations. rewrite py_min_fmap. f_equal.
    apply py_min_ext. intros s. unfold station_key.
    destruct (station_report_coordinates net0 s) as (_ & -> & ->). reflexivity. }
  split; [apply Hnear|]. rewrite !Hnear.
  destruct (py_min _ STATIONS) as [s|e]; [|reflexivity].
  cbn [fmap result_fmap].
  destruct (station_report_coordinates net s) as (-> & _).
  destruct (station_report_coordinates net' s) as (-> & _). reflexivity.
Qed.

(** X21: subscriptions reach the notifier: after any sequence of operations,
    the loop body prints a notification for a venue with a configured
    identifier exactly when the venue's nearest station has risk [medium] or
    [high] and at least one subscribe request was accepted for the venue, and
    the number it announces is the number of these requests. *)
Theorem notification_counts_accepted_requests (M : libm)
    (stations : list station_row) (ops : list operation) (v : venue)
    (n : notification) :
  id v ∈ venue_ids ->
  notify_venue M stations (run_ops ops) v = Ok (Some n) <->
  exists nearest,
    nearest_station M v stations = Ok nearest /\
    elevated (risk nearest) = true /\
    omap (accepted (id v)) ops <> [] /\
    n = {| n_venue := vname v; n_risk := risk nearest;
           n_count := length (omap (accepted (id v)) ops) |}.
Proof.
  intros Hk. rewrite notify_venue_spec.
  rewrite (run_ops_accepted ops (id v) Hk). cbn [default from_option Datatypes.id].
  split; intros (nearest & Hn & He & Hs & ->); exists nearest;
    (split; [exact Hn|]); (split; [|auto]); apply elevated_spec; exact He.
Qed.

Lemma notification_counts_accepted_requests_witness :
  notify_venue libm_exact_points [origin_row "01104705" "high"]
    (run_ops [OpSubscribe (JDict ann); OpSubscribe (JDict no_email);
              OpSubscribe (JDict ann)])
    origin_venue
  = Ok (Some {| n_venue := "Community Boating, Inc. (CBI)"; n_risk := "high";
                n_count := 2 |}).
Proof.
  apply (notification_counts_accepted_requests libm_exact_points
           [origin_row "01104705" "high"]
           [OpSubscribe (JDict ann); OpSubscribe (JDict no_email); OpSubscribe (JDict ann)]
           origin_venue).
  - apply list_elem_of_here.
  - exists (origin_row "01104705" "high").
    split; [vm_compute; reflexivity|]. split; [reflexivity|].
    split; [discriminate|reflexivity].
Defined.
